(** * The suggestion endpoint (src/app/api/suggestions/route.ts)

    A shallow embedding of the route handler and the properties of its
    request/response cycle.  JavaScript values are an inductive type,
    exceptions an error monad, the outbound call and the timer a trace of
    events, response headers a finite map. *)

From Stdlib Require Import Ascii NArith Bool Lia.
From stdpp Require Import base strings gmap.

Local Open Scope N_scope.
Set Warnings "-register-all".


(** ** Text

    A string is well-formed Unicode text held as its UTF-8 bytes, the way
    the string literals of this file are. *)

Definition code (a : ascii) : N := N_of_ascii a.

(** The white space of ECMAScript ([WhiteSpace] and [LineTerminator]):
    TAB, LF, VT, FF, CR and SP take one byte; *)
Definition ws1 (a : ascii) : bool :=
  ((9 <=? code a) && (code a <=? 13)) || (code a =? 32).

(** U+00A0 takes two; *)
Definition ws2 (a b : ascii) : bool :=
  (code a =? 194) && (code b =? 160).

(** U+1680, U+2000..U+200A, U+2028, U+2029, U+202F, U+205F, U+3000 and
    U+FEFF take three. *)
Definition ws3 (a b c : ascii) : bool :=
  ((code a =? 225) && (code b =? 154) && (code c =? 128))
  || ((code a =? 226) && (code b =? 128)
      && (((128 <=? code c) && (code c <=? 138))
          || (code c =? 168) || (code c =? 169) || (code c =? 175)))
  || ((code a =? 226) && (code b =? 129) && (code c =? 159))
  || ((code a =? 227) && (code b =? 128) && (code c =? 128))
  || ((code a =? 239) && (code b =? 187) && (code c =? 191)).

(** Dropping white space from the front of a text.  With [back] set the
    text is read from its last byte, so a sequence arrives reversed. *)
Fixpoint strip (back : bool) (s : string) : string :=
  match s with
  | String a r1 =>
      if ws1 a then strip back r1
      else
        match r1 with
        | String b r2 =>
            if (if back then ws2 b a else ws2 a b) then strip back r2
            else
              match r2 with
              | String c r3 =>
                  if (if back then ws3 c b a else ws3 a b c)
                  then strip back r3
                  else s
              | EmptyString => s
              end
        | EmptyString => s
        end
  | EmptyString => EmptyString
  end.

Definition trimStart (s : string) : string := strip false s.

Definition trimEnd (s : string) : string :=
  String.rev (strip true (String.rev s)).

(** [String.prototype.trim]. *)
Definition trim (s : string) : string := trimEnd (trimStart s).

(** [Array.prototype.join] on an array of strings. *)
Definition join (sep : string) (l : list string) : string :=
  String.concat sep l.

(** A text made of white space only. *)
Inductive whitespace_only : string -> Prop :=
  | ws_empty : whitespace_only EmptyString
  | ws_one a s : ws1 a = true -> whitespace_only s ->
      whitespace_only (String a s)
  | ws_two a b s : ws2 a b = true -> whitespace_only s ->
      whitespace_only (String a (String b s))
  | ws_three a b c s : ws3 a b c = true -> whitespace_only s ->
      whitespace_only (String a (String b (String c s))).

(** [t] occurs in [s]. *)
Definition occurs_in (t s : string) : Prop :=
  exists pre post, s = pre +:+ t +:+ post.

(** ASCII lower case, the normal form of a header name. *)
Definition lower_ascii (a : ascii) : ascii :=
  if (65 <=? code a) && (code a <=? 90) then ascii_of_N (code a + 32) else a.

Fixpoint lower (s : string) : string :=
  match s with
  | EmptyString => EmptyString
  | String a r => String (lower_ascii a) (lower r)
  end.


(** ** JavaScript values and exceptions *)

(** What [JSON.parse] yields, [undefined], and the two kinds of value a
    lookup in a plain object can inherit from [Object.prototype]: a
    built-in function (by its name) and [Object.prototype] itself.  A
    number is carried as the text JavaScript prints for it ([0] and [-0]
    both print as "0"); an object lists its own properties, each name
    once. *)
Inductive value : Type :=
  | VUndefined
  | VNull
  | VBool (b : bool)
  | VNum (printed : string)
  | VStr (s : string)
  | VArr (items : list value)
  | VObj (props : list (string * value))
  | VNative (name : string)
  | VObjectPrototype.

(** A thrown [Error]: its [name] and its [message], if it has one. *)
Record JsError : Type := mkError {
  err_name : string;
  err_message : option string
}.

Inductive outcome (A : Type) : Type :=
  | Ret (a : A)
  | Throw (e : JsError).
Arguments Ret {A} a.
Arguments Throw {A} e.

Definition bind {A B : Type} (o : outcome A) (k : A -> outcome B) : outcome B :=
  match o with
  | Ret a => k a
  | Throw e => Throw e
  end.

Declare Scope js_scope.
Delimit Scope js_scope with js.
Notation "'let*' x ':=' o 'in' k" := (bind o (fun x => k))
  (at level 10, x name, o at level 100, k at level 200) : js_scope.

Definition TypeError (msg : string) : JsError := mkError "TypeError" (Some msg).

(** [Boolean(v)], the test behind [!v], [v ? a : b] and [filter(Boolean)]. *)
Definition truthy (v : value) : bool :=
  match v with
  | VUndefined | VNull => false
  | VBool b => b
  | VNum p => negb (String.eqb p "0") && negb (String.eqb p "NaN")
  | VStr s => negb (String.eqb s EmptyString)
  | VArr _ | VObj _ | VNative _ | VObjectPrototype => true
  end.

Fixpoint assoc (k : string) (props : list (string * value)) : option value :=
  match props with
  | [] => None
  | (k', v) :: rest => if String.eqb k k' then Some v else assoc k rest
  end.

(** All the results of the elements in order, or the first exception. *)
Fixpoint sequence {A : Type} (l : list (outcome A)) : outcome (list A) :=
  match l with
  | [] => Ret []
  | o :: rest =>
      match o with
      | Throw e => Throw e
      | Ret a =>
          match sequence rest with
          | Throw e => Throw e
          | Ret r => Ret (a :: r)
          end
      end
  end.

(** [ToString], which a template literal applies to what it interpolates
    and a computed member access to its key.  An array prints its
    elements separated by commas, [null] and [undefined] as nothing.  A
    parsed object prints through [Object.prototype.toString] unless an own
    property hides that method: own properties of parsed JSON are never
    callable, and [Object.prototype.valueOf] returns the object. *)
Fixpoint to_string (v : value) : outcome string :=
  match v with
  | VUndefined => Ret "undefined"
  | VNull => Ret "null"
  | VBool true => Ret "true"
  | VBool false => Ret "false"
  | VNum p => Ret p
  | VStr s => Ret s
  | VArr items =>
      match sequence (map (fun x =>
                match x with
                | VUndefined | VNull => Ret EmptyString
                | _ => to_string x
                end) items) with
      | Ret l => Ret (join "," l)
      | Throw e => Throw e
      end
  | VObj props =>
      match assoc "toString" props with
      | Some _ => Throw (TypeError "Cannot convert object to primitive value")
      | None => Ret "[object Object]"
      end
  | VNative name => Ret ("function " +:+ name +:+ "() { [native code] }")
  | VObjectPrototype => Ret "[object Object]"
  end.

(** The names the handler reads from parsed data.  No built-in prototype
    defines any of them, so a value has such a property only as its own. *)
Inductive prop : Type :=
  | P_field | P_language | P_existingText | P_applicantDetails
  | P_error | P_message | P_choices | P_content | P_0.

Definition read_name (p : prop) : string :=
  match p with
  | P_field => "field"
  | P_language => "language"
  | P_existingText => "existingText"
  | P_applicantDetails => "applicantDetails"
  | P_error => "error"
  | P_message => "message"
  | P_choices => "choices"
  | P_content => "content"
  | P_0 => "0"
  end.

(** Reading a property of a value that is neither [null] nor [undefined].
    An array and a string have their first element at [0] (of a string the
    handler reads nothing further than [.message], which no string has). *)
Definition read (v : value) (p : prop) : value :=
  match v with
  | VObj props =>
      match assoc (read_name p) props with
      | Some x => x
      | None => VUndefined
      end
  | VArr items =>
      match p, items with
      | P_0, x :: _ => x
      | _, _ => VUndefined
      end
  | VStr s =>
      match p, s with
      | P_0, String a _ => VStr (String a EmptyString)
      | _, _ => VUndefined
      end
  | _ => VUndefined
  end.

Definition nullish (v : value) : bool :=
  match v with
  | VUndefined | VNull => true
  | _ => false
  end.

(** [v.p] *)
Definition member (v : value) (p : prop) : outcome value :=
  match v with
  | VUndefined =>
      Throw (TypeError ("Cannot read properties of undefined (reading '"
                        +:+ read_name p +:+ "')"))
  | VNull =>
      Throw (TypeError ("Cannot read properties of null (reading '"
                        +:+ read_name p +:+ "')"))
  | _ => Ret (read v p)
  end.

(** [v?.p] *)
Definition opt_member (v : value) (p : prop) : value :=
  if nullish v then VUndefined else read v p.

(** What every plain object inherits from [Object.prototype]. *)
Definition object_prototype_functions : list string :=
  [ "__defineGetter__"; "__defineSetter__"; "hasOwnProperty";
    "__lookupGetter__"; "__lookupSetter__"; "isPrototypeOf";
    "propertyIsEnumerable"; "toString"; "valueOf"; "toLocaleString" ].

Definition object_prototype (k : string) : value :=
  if String.eqb k "constructor" then VNative "Object"
  else if String.eqb k "__proto__" then VObjectPrototype
  else if existsb (String.eqb k) object_prototype_functions then VNative k
  else VUndefined.

Fixpoint own (k : string) (table : list (string * string)) : option string :=
  match table with
  | [] => None
  | (k', v) :: rest => if String.eqb k k' then Some v else own k rest
  end.

(** [table[k]] for a table written as an object literal of strings: an
    own property, or else what the prototype has under that name. *)
Definition lookup (table : list (string * string)) (k : string) : value :=
  match own k table with
  | Some v => VStr v
  | None => object_prototype k
  end.

(** [Array.prototype.join] on values: [null] and [undefined] print as
    nothing, the others through [ToString]. *)
Definition join_values (sep : string) (l : list value) : outcome string :=
  match sequence (map (fun x =>
            match x with
            | VUndefined | VNull => Ret EmptyString
            | _ => to_string x
            end) l) with
  | Ret strs => Ret (join sep strs)
  | Throw e => Throw e
  end.

(** ** Requests and responses *)

Record Response : Type := mkResponse {
  status : N;
  body : option value;
  headers : gmap string string
}.

(** [headers.set] and [headers.get]; header names do not depend on case. *)
Definition headers_set (k v : string) (r : Response) : Response :=
  mkResponse (status r) (body r) (<[lower k := v]> (headers r)).

Definition headers_get (k : string) (r : Response) : option string :=
  headers r !! lower k.

(** The response that [NextResponse.json(v, { status })] returns when it
    returns one.  The call itself is [construct] below: the platform's
    [Response] refuses some statuses and throws. *)
Definition NextResponse_json (v : value) (st : N) : Response :=
  mkResponse st (Some v) {[ "content-type" := "application/json" ]}.

(** [new NextResponse(null, { status })] *)
Definition NextResponse_empty (st : N) : Response :=
  mkResponse st None ∅.

Definition error_body (msg : string) : value := VObj [("error", VStr msg)].
Definition suggestion_body (text : string) : value :=
  VObj [("suggestion", VStr text)].

(** The call sent to the provider; [body] is kept as the object that
    [JSON.stringify] serialises. *)
Record Message : Type := mkMessage { role : string; content : string }.

Record ChatRequest : Type := mkChatRequest {
  model : string;
  messages : list Message;
  temperature : string
}.

Record Call : Type := mkCall {
  url : string;
  method : string;
  call_headers : list (string * string);
  call_body : ChatRequest
}.

(** What the provider answered: its status and what [response.json()]
    gives for its body. *)
Record ProviderResponse : Type := mkProviderResponse {
  provider_status : N;
  provider_json : outcome value
}.

(** [response.ok] *)
Definition ok (r : ProviderResponse) : bool :=
  (200 <=? provider_status r) && (provider_status r <=? 299).

(** How the promise of [fetch] settles when left alone, and after how many
    milliseconds, if it ever does. *)
Inductive settlement : Type :=
  | Resolves (r : ProviderResponse)
  | Rejects (e : JsError).

Inductive behaviour : Type :=
  | Settles (after_ms : N) (s : settlement)
  | Hangs.

(** What the handler does to the provider: it sends a call, and the timer
    of lines 62 and 63, when it is left to fire, runs [controller.abort()]
    on the signal that went with that call.  When no call was sent (the
    prompt could not be built) the signal belongs to nothing, and its
    abort is not an event. *)
Inductive event : Type :=
  | Fetch (c : Call)
  | Abort.

(** The surroundings of one request: what [request.json()] gives and how
    the provider behaves on a call. *)
Record World : Type := mkWorld {
  request_json : outcome value;
  provider : Call -> behaviour
}.

(** ** The module *)

Record Config : Type := mkConfig {
  OPENAI_API_KEY : string;
  OPENAI_MODEL : string
}.

(** Lines 3 to 8: the key must be set, the model has a default. *)
Definition load_config (key model : option string) : outcome Config :=
  match key with
  | None | Some EmptyString =>
      Throw (mkError "Error"
        (Some ("OPENAI_API_KEY is not set. Add it to your environment "
               +:+ "before starting the server.")))
  | Some k =>
      Ret (mkConfig k (match model with Some m => m | None => "gpt-4o-mini" end))
  end.

Definition fieldFocus : list (string * string) :=
  [ ("currentFinancialSituation",
      "current income sources, essential expenses, debts, and concrete "
      +:+ "examples of financial strain or recent hardship");
    ("employmentCircumstances",
      "employment status, hours or income level, stability of work, "
      +:+ "caregiving or health barriers, and any recent changes affecting "
      +:+ "employment");
    ("reasonForApplying",
      "specific reasons for seeking support now, the type of "
      +:+ "assistance needed, and how it will help meet urgent household "
      +:+ "needs") ].

Definition fieldGuidance : list (string * string) :=
  [ ("currentFinancialSituation",
      "Begin with the main financial pressure (for example rising "
      +:+ "bills, debt, or reduced income). Mention amounts when they help "
      +:+ "explain the strain. Avoid greetings or introductions.");
    ("employmentCircumstances",
      "Start by describing the current work situation or lack of work. "
      +:+ "Include hours worked, pay level, or caregiving/health limits if "
      +:+ "relevant. Avoid greetings or introductions.");
    ("reasonForApplying",
      "Lead with the immediate need for assistance and connect it to "
      +:+ "day-to-day realities. Highlight how support would be used. "
      +:+ "Avoid greetings or introductions.") ].

Definition corsHeaders : list (string * string) :=
  [ ("Access-Control-Allow-Origin", "*");
    ("Access-Control-Allow-Methods", "POST, OPTIONS");
    ("Access-Control-Allow-Headers", "Content-Type, Authorization") ].

Definition withCors (response : Response) : Response :=
  foldl (fun r kv => headers_set (fst kv) (snd kv) r) response corsHeaders.

Definition OPTIONS : Response := withCors (NextResponse_empty 204).

Definition dq : string := String (ascii_of_N 34) EmptyString.

Definition system_before : string :=
  "You are assisting with drafting a government social support "
  +:+ "application. Write in the applicant's first-person voice as if "
  +:+ "they are typing their own paragraph. Keep the tone sincere, "
  +:+ "respectful, and grounded in practical details. Never use "
  +:+ "greetings, introductions, or phrases like "
  +:+ dq +:+ "Hello" +:+ dq +:+ " or " +:+ dq +:+ "My name is" +:+ dq
  +:+ ". Do not repeat names, ID numbers, phone numbers, or other "
  +:+ "personal identifiers. Focus tightly on ".

Definition system_after : string :=
  ". Limit the response to one paragraph under 120 words, avoid "
  +:+ "bullet lists, and never refer to yourself as an assistant or AI.".

Definition style_line : string :=
  "Sound like a real person describing lived experience in a warm but "
  +:+ "direct way. Do not start with a greeting.".

Definition timeout_ms : N := 20000.

Definition AbortError : JsError :=
  mkError "AbortError" (Some "This operation was aborted").

Local Open Scope js_scope.

(** [table[v]]: the key is converted first. *)
Definition index (table : list (string * string)) (v : value) : outcome value :=
  let* k := to_string v in
  Ret (lookup table k).

(** [`${v}`] *)
Definition interpolate (v : value) : outcome string := to_string v.

(** Line 76. *)
Definition system_content (body : value) : outcome string :=
  let* f := member body P_field in
  let* focus := index fieldFocus f in
  let* text := interpolate focus in
  Ret (system_before +:+ text +:+ system_after).

(** Line 81. *)
Definition language_line (body : value) : outcome string :=
  let* l := member body P_language in
  Ret ("Write the paragraph in "
       +:+ (match l with
            | VStr "ar" => "Arabic"
            | _ => "English"
            end)
       +:+ ".").

(** Line 83. *)
Definition guidance (body : value) : outcome value :=
  let* f := member body P_field in
  index fieldGuidance f.

(** Line 84. *)
Definition context_segment (body : value) : outcome string :=
  let* d := member body P_applicantDetails in
  if truthy d
  then let* text := interpolate d in
       Ret ("Applicant context: " +:+ text +:+ ".")
  else Ret EmptyString.

(** Line 85. *)
Definition notes_segment (body : value) : outcome string :=
  let* e := member body P_existingText in
  if truthy e
  then let* text := interpolate e in
       Ret ("Applicant notes: " +:+ text)
  else Ret EmptyString.

(** Lines 80 to 87: the array, after [filter(Boolean)]. *)
Definition user_segments (body : value) : outcome (list value) :=
  let* line := language_line body in
  let* g := guidance body in
  let* c := context_segment body in
  let* n := notes_segment body in
  Ret (List.filter truthy [VStr line; VStr style_line; g; VStr c; VStr n]).

(** Lines 80 to 88. *)
Definition user_content (body : value) : outcome string :=
  let* segments := user_segments body in
  join_values " " segments.

(** Lines 65 to 94: the arguments of [fetch]. *)
Definition build_call (cfg : Config) (body : value) : outcome Call :=
  let* system := system_content body in
  let* user := user_content body in
  Ret (mkCall "https://api.openai.com/v1/chat/completions" "POST"
         [ ("Content-Type", "application/json");
           ("Authorization", "Bearer " +:+ OPENAI_API_KEY cfg) ]
         (mkChatRequest (OPENAI_MODEL cfg)
            [ mkMessage "system" system; mkMessage "user" user ]
            "0.6")).

(** Lines 62 to 96: the call under its timer.  When the promise resolves
    before the timer fires, line 96 clears the timer.  When it rejects
    before that, line 96 is skipped: the exception goes to the [catch]
    block, the timer stays armed, and the abort runs at 20 seconds on the
    call that has already failed.  When the promise is still pending at 20
    seconds, the timer aborts the call, whose promise rejects with an
    [AbortError]. *)
Definition fetch_with_timeout (w : World) (c : Call)
  : outcome ProviderResponse * list event :=
  match provider w c with
  | Settles t s =>
      if t <? timeout_ms
      then match s with
           | Resolves r => (Ret r, [Fetch c])
           | Rejects e => (Throw e, [Fetch c; Abort])
           end
      else (Throw AbortError, [Fetch c; Abort])
  | Hangs => (Throw AbortError, [Fetch c; Abort])
  end.

(** Line 58. *)
Definition missing_fields (body : value) : bool :=
  negb (truthy (opt_member body P_field))
  || negb (truthy (opt_member body P_language)).

(** Lines 99 to 103. *)
Definition provider_message (response : ProviderResponse) : string :=
  let errorPayload :=
    match provider_json response with
    | Ret v => v
    | Throw _ => VObj []
    end in
  match opt_member (opt_member errorPayload P_error) P_message with
  | VStr m => m
  | _ => "Unable to generate suggestion."
  end.

(** Line 108. *)
Definition choice_content (data : value) : value :=
  opt_member (opt_member (opt_member (opt_member data P_choices) P_0)
                P_message) P_content.

(** [content.trim()]: only a string has the method. *)
Definition call_trim (content : value) : outcome string :=
  match content with
  | VStr s => Ret (trim s)
  | _ => Throw (TypeError "content.trim is not a function")
  end.

(** The statuses that go with no body. *)
Definition null_body_status (st : N) : bool :=
  existsb (N.eqb st) [101; 103; 204; 205; 304].

(** What the platform's [Response] throws when it is asked for a status
    with a body: a [RangeError] outside 200..599, a [TypeError] for a
    status that goes with no body (a status line has three digits). *)
Definition init_error (st : N) : option JsError :=
  if (st <? 200) || (599 <? st)
  then Some (mkError "RangeError"
               (Some ("init[" +:+ dq +:+ "status" +:+ dq
                      +:+ "] must be in the range of 200 to 599, inclusive.")))
  else if null_body_status st
  then Some (TypeError
               ("Response constructor: Invalid response status code "
                +:+ (if st =? 204 then "204"
                     else if st =? 205 then "205" else "304")))
  else None.

(** [NextResponse.json(v, { status })] *)
Definition construct (v : value) (st : N) : outcome Response :=
  match init_error st with
  | Some e => Throw e
  | None => Ret (NextResponse_json v st)
  end.

(** Lines 98 to 114.  Line 104 is the one place where the status is not a
    literal; 200, 400, 500 and 504 are statuses that [construct] accepts. *)
Definition relay (response : ProviderResponse) : outcome Response :=
  if negb (ok response)
  then
    let* r := construct (error_body (provider_message response))
                (provider_status response) in
    Ret (withCors r)
  else
    let* data := provider_json response in
    let content := choice_content data in
    if negb (truthy content)
    then Ret (withCors (NextResponse_json
                          (error_body "No suggestion received.") 500))
    else
      let* text := call_trim content in
      Ret (withCors (NextResponse_json (suggestion_body text) 200)).

(** Lines 55 to 114, the [try] block, with what it did to the provider. *)
Definition attempt (cfg : Config) (w : World)
  : outcome Response * list event :=
  match request_json w with
  | Throw e => (Throw e, [])
  | Ret body =>
      if missing_fields body
      then (Ret (withCors (NextResponse_json
                             (error_body "Missing required fields.") 400)),
            [])
      else
        match build_call cfg body with
        | Throw e => (Throw e, [])
        | Ret c =>
            let (fetched, trace) := fetch_with_timeout w c in
            (bind fetched relay, trace)
        end
  end.

(** Lines 115 to 122, the [catch] block. *)
Definition recover (e : JsError) : Response :=
  if String.eqb (err_name e) "AbortError"
  then withCors (NextResponse_json (error_body "The request timed out.") 504)
  else withCors (NextResponse_json
                   (error_body (match err_message e with
                                | Some m => m
                                | None => "Unable to generate suggestion."
                                end))
                   500).

Definition POST (cfg : Config) (w : World) : Response * list event :=
  match attempt cfg w with
  | (Ret response, trace) => (response, trace)
  | (Throw e, trace) => (recover e, trace)
  end.

(** ** What the properties speak of *)

(** The three headers of [corsHeaders] on a response. *)
Definition carries_cors (r : Response) : Prop :=
  headers_get "Access-Control-Allow-Origin" r = Some "*"
  /\ headers_get "Access-Control-Allow-Methods" r = Some "POST, OPTIONS"
  /\ headers_get "Access-Control-Allow-Headers" r
     = Some "Content-Type, Authorization".

(** The request passes line 58 and [c] is the call built from it. *)
Definition forwards (cfg : Config) (w : World) (c : Call) : Prop :=
  exists body,
    request_json w = Ret body
    /\ missing_fields body = false
    /\ build_call cfg body = Ret c.

(** The promise of [fetch] is still pending when the deadline has passed. *)
Definition overdue (b : behaviour) : Prop :=
  match b with
  | Hangs => True
  | Settles t _ => timeout_ms < t
  end.

(** The values of the type [SuggestionField] (line 10). *)
Definition SuggestionField : list string :=
  [ "currentFinancialSituation"; "employmentCircumstances";
    "reasonForApplying" ].

(** The names every plain object answers to by inheritance. *)
Definition inherited : list string :=
  "constructor" :: "__proto__" :: object_prototype_functions.

(** [ToString] of the value does not throw. *)
Definition printable (v : value) : Prop := exists s, to_string v = Ret s.

(** The text does not open an "Applicant context" segment. *)
Definition no_context (s : string) : Prop :=
  String.prefix "Applicant context" s = false.

(** What a lookup in [fieldGuidance] can give. *)
Inductive guidance_result : value -> Prop :=
  | guidance_own text :
      text <> EmptyString ->
      String.prefix "Applicant context" text = false ->
      guidance_result (VStr text)
  | guidance_function name : guidance_result (VNative name)
  | guidance_prototype : guidance_result VObjectPrototype
  | guidance_none : guidance_result VUndefined.

Definition example_config : Config := mkConfig "sk-test" "gpt-4o-mini".

(** A provider that is never reached or never answers. *)
Definition silent : Call -> behaviour := fun _ => Hangs.

(** A request without a language. *)
Definition no_language : value := VObj [("field", VStr "reasonForApplying")].

(** A request whose body is not JSON: parsing the empty text. *)
Definition SyntaxError_empty : JsError :=
  mkError "SyntaxError" (Some "Unexpected end of JSON input").

Definition malformed : World := mkWorld (Throw SyntaxError_empty) silent.

(** A well-formed request. *)
Definition sample_request : value :=
  VObj [ ("field", VStr "reasonForApplying"); ("language", VStr "en");
         ("applicantDetails", VStr "Single parent of two") ].

(** The same without the optional fields. *)
Definition plain_request : value :=
  VObj [ ("field", VStr "reasonForApplying"); ("language", VStr "en") ].

(** A request whose [field] is a name every object inherits. *)
Definition inherited_request : value :=
  VObj [ ("field", VStr "toString"); ("language", VStr "en") ].

(** A request whose [field] no object knows. *)
Definition unknown_request : value :=
  VObj [ ("field", VStr "housing"); ("language", VStr "en") ].

(** The same without a language. *)
Definition unknown_without_language : value :=
  VObj [ ("field", VStr "housing") ].

(** The same with notes that are an object hiding [toString]. *)
Definition unknown_with_opaque_notes : value :=
  VObj [ ("field", VStr "housing"); ("language", VStr "en");
         ("existingText", VObj [("toString", VNull)]) ].

(** The call built from a request, for the requests that have one. *)
Definition call_of (cfg : Config) (body : value) : Call :=
  match build_call cfg body with
  | Ret c => c
  | Throw _ =>
      mkCall EmptyString EmptyString []
        (mkChatRequest EmptyString [] EmptyString)
  end.

Definition sample_call : Call := call_of example_config sample_request.
Definition plain_call : Call := call_of example_config plain_request.
Definition unknown_call : Call := call_of example_config unknown_request.

(** The body [{ choices: [{ message: { content } }] }]. *)
Definition completion (content : value) : value :=
  VObj [("choices", VArr [VObj [("message", VObj [("content", content)])]])].

(** The body [{ error: { message } }]. *)
Definition failure (message : value) : value :=
  VObj [("error", VObj [("message", message)])].

(** The provider answers every call after [t] milliseconds. *)
Definition answering (t : N) (r : ProviderResponse) : Call -> behaviour :=
  fun _ => Settles t (Resolves r).

(** ** What the further properties speak of *)

(** The text opens with white space (read from its last byte when [back]
    is set). *)
Definition leads (back : bool) (s : string) : bool :=
  match s with
  | String a r1 =>
      ws1 a
      || match r1 with
         | String b r2 =>
             (if back then ws2 b a else ws2 a b)
             || match r2 with
                | String c _ => if back then ws3 c b a else ws3 a b c
                | EmptyString => false
                end
         | EmptyString => false
         end
  | EmptyString => false
  end.

(** The timer fires before the promise of [fetch] settles. *)
Definition expired (b : behaviour) : Prop :=
  match b with
  | Hangs => True
  | Settles t _ => timeout_ms <= t
  end.

(** The ways through [relay], lines 98 to 114. *)
Inductive relay_path (p : ProviderResponse) : outcome Response -> Prop :=
  | relay_refused :
      ok p = false -> init_error (provider_status p) = None ->
      relay_path p
        (Ret (withCors (NextResponse_json
                          (error_body (provider_message p))
                          (provider_status p))))
  | relay_unbuilt e :
      ok p = false -> init_error (provider_status p) = Some e ->
      relay_path p (Throw e)
  | relay_unparsed e :
      ok p = true -> provider_json p = Throw e ->
      relay_path p (Throw e)
  | relay_empty data :
      ok p = true -> provider_json p = Ret data ->
      truthy (choice_content data) = false ->
      relay_path p
        (Ret (withCors (NextResponse_json
                          (error_body "No suggestion received.") 500)))
  | relay_text data text :
      ok p = true -> provider_json p = Ret data ->
      choice_content data = VStr text -> text <> EmptyString ->
      relay_path p
        (Ret (withCors (NextResponse_json (suggestion_body (trim text)) 200)))
  | relay_other data :
      ok p = true -> provider_json p = Ret data ->
      truthy (choice_content data) = true ->
      (forall text, choice_content data <> VStr text) ->
      relay_path p (Throw (TypeError "content.trim is not a function")).

(** What became of a result of the [try] block: the response itself, or
    the one the [catch] block makes of the exception. *)
Definition settle (o : outcome Response) : Response :=
  match o with
  | Ret r => r
  | Throw e => recover e
  end.

(** The ways through [POST], with the response and the trace of each. *)
Inductive POST_path (cfg : Config) (w : World)
  : Response * list event -> Prop :=
  | path_unreadable e :
      request_json w = Throw e ->
      POST_path cfg w (recover e, [])
  | path_rejected body :
      request_json w = Ret body -> missing_fields body = true ->
      POST_path cfg w
        (withCors (NextResponse_json
                     (error_body "Missing required fields.") 400), [])
  | path_unbuilt body e :
      request_json w = Ret body -> missing_fields body = false ->
      build_call cfg body = Throw e ->
      POST_path cfg w (recover e, [])
  | path_expired c :
      forwards cfg w c -> expired (provider w c) ->
      POST_path cfg w
        (withCors (NextResponse_json
                     (error_body "The request timed out.") 504),
         [Fetch c; Abort])
  | path_failed c t e :
      forwards cfg w c ->
      provider w c = Settles t (Rejects e) -> t < timeout_ms ->
      POST_path cfg w (recover e, [Fetch c; Abort])
  | path_answered c t p o :
      forwards cfg w c ->
      provider w c = Settles t (Resolves p) -> t < timeout_ms ->
      relay_path p o ->
      POST_path cfg w (settle o, [Fetch c]).

(** The status is one of success, 200 to 299. *)
Definition successful (st : N) : Prop := 200 <= st /\ st <= 299.

(** The name of the language in the first line of the user message. *)
Definition language_name (body : value) : string :=
  match opt_member body P_language with
  | VStr "ar" => "Arabic"
  | _ => "English"
  end.

(** What is left of [fieldGuidance[k]] in the user message: nothing when
    the lookup gives [undefined], else its text. *)
Definition guidance_text (k : string) : list string :=
  match lookup fieldGuidance k with
  | VStr text => [text]
  | VNative name => ["function " +:+ name +:+ "() { [native code] }"]
  | VObjectPrototype => ["[object Object]"]
  | _ => []
  end.

(** All that [guidance_text] can give. *)
Definition all_guidance_texts : list (list string) :=
  [] :: ["[object Object]"]
  :: map (fun kv => [snd kv]) fieldGuidance
  ++ map (fun name => ["function " +:+ name +:+ "() { [native code] }"])
       ("Object" :: object_prototype_functions).

(** The user message up to the guidance. *)
Definition front (name : string) (g : list string) : string :=
  join " " (("Write the paragraph in " +:+ name +:+ ".") :: style_line :: g).

(** [t] could open [x] followed by more text: one is the beginning of the
    other. *)
Fixpoint may_start (t x : string) : bool :=
  match t, x with
  | EmptyString, _ => true
  | _, EmptyString => true
  | String a t', String b x' => Ascii.eqb a b && may_start t' x'
  end.

(** No occurrence of [t] starts inside [x], whatever follows [x]. *)
Fixpoint clean (t x : string) : bool :=
  match x with
  | EmptyString => true
  | String _ x' => negb (may_start t x) && clean t x'
  end.

(** The four properties of the body that the handler reads. *)
Definition read_of_body : list prop :=
  [ P_field; P_language; P_applicantDetails; P_existingText ].

(** The names of [corsHeaders], in lower case. *)
Definition cors_names : list string := map (fun kv => lower (fst kv)) corsHeaders.

(** A request with notes, and one whose language is not the code the
    handler knows. *)
Definition noted_request : value :=
  VObj [ ("field", VStr "employmentCircumstances"); ("language", VStr "ar");
         ("existingText", VStr "I lost my job in March") ].

Definition noted_call : Call := call_of example_config noted_request.

Definition french_request : value :=
  VObj [ ("field", VStr "reasonForApplying"); ("language", VStr "fr") ].

Definition french_call : Call := call_of example_config french_request.

(** The sample request with a property the handler does not know. *)
Definition annotated_request : value :=
  VObj [ ("traceId", VNum "17"); ("field", VStr "reasonForApplying");
         ("language", VStr "en");
         ("applicantDetails", VStr "Single parent of two") ].

(** A provider whose connection fails. *)
Definition fetch_failed : JsError := mkError "TypeError" (Some "fetch failed").

Definition failing (t : N) (e : JsError) : Call -> behaviour :=
  fun _ => Settles t (Rejects e).

(** The one exception that [ToString] throws on these values. *)
Definition unprintable : JsError :=
  TypeError "Cannot convert object to primitive value".

(** A response with headers of its own. *)
Definition cached_response : Response :=
  mkResponse 200 (Some (suggestion_body "ok"))
    (<["cache-control" := "no-store"]>
       (<["access-control-allow-origin" := "https://example.org"]> ∅)).

(** ** Cross-origin headers *)

(** The statuses that the handler writes out are accepted. *)
Lemma construct_literal v :
  construct v 200 = Ret (NextResponse_json v 200)
  /\ construct v 400 = Ret (NextResponse_json v 400)
  /\ construct v 500 = Ret (NextResponse_json v 500)
  /\ construct v 504 = Ret (NextResponse_json v 504).
Proof. repeat split. Qed.

Lemma withCors_carries r : carries_cors (withCors r).
Proof.
  unfold carries_cors, withCors, headers_get, headers_set; cbn.
  repeat split.
  - rewrite lookup_insert_ne by discriminate.
    rewrite lookup_insert_ne by discriminate.
    apply lookup_insert_eq.
  - rewrite lookup_insert_ne by discriminate.
    apply lookup_insert_eq.
  - apply lookup_insert_eq.
Qed.

Lemma relay_withCors p r : relay p = Ret r -> exists r0, r = withCors r0.
Proof.
  unfold relay. destruct (negb (ok p)).
  - destruct (construct _ _); cbn; [|discriminate]. intros [= <-]. eauto.
  - destruct (provider_json p) as [data|e]; cbn; [|discriminate].
    destruct (negb (truthy (choice_content data))).
    + intros [= <-]. eauto.
    + destruct (call_trim (choice_content data)); cbn; [|discriminate].
      intros [= <-]. eauto.
Qed.

Lemma recover_withCors e : exists r0, recover e = withCors r0.
Proof. unfold recover. destruct (String.eqb _ _); eauto. Qed.

Lemma attempt_withCors cfg w r tr :
  attempt cfg w = (Ret r, tr) -> exists r0, r = withCors r0.
Proof.
  unfold attempt.
  destruct (request_json w) as [body|e]; [|discriminate].
  destruct (missing_fields body).
  - intros [= <- _]. eauto.
  - destruct (build_call cfg body) as [c|e]; [|discriminate].
    destruct (fetch_with_timeout w c) as [fetched trace].
    intros [= H _]. destruct fetched as [p|e]; [|discriminate].
    cbn in H. eapply relay_withCors, H.
Qed.

Lemma POST_withCors cfg w : exists r0, fst (POST cfg w) = withCors r0.
Proof.
  unfold POST. destruct (attempt cfg w) as [[r|e] tr] eqn:E; cbn.
  - eapply attempt_withCors, E.
  - apply recover_withCors.
Qed.

Lemma OPTIONS_no_content : status OPTIONS = 204 /\ body OPTIONS = None.
Proof. split; reflexivity. Qed.

(** C8: every response of [POST], whatever the request and whatever the
    provider does, and the response of [OPTIONS] carry the three
    cross-origin headers
    [Access-Control-Allow-Origin: *],
    [Access-Control-Allow-Methods: POST, OPTIONS] and
    [Access-Control-Allow-Headers: Content-Type, Authorization]. *)
Theorem every_response_carries_cors (cfg : Config) (w : World) :
  carries_cors (fst (POST cfg w)) /\ carries_cors OPTIONS.
Proof.
  split.
  - destruct (POST_withCors cfg w) as [r0 ->]. apply withCors_carries.
  - apply withCors_carries.
Qed.

(** ** Validation *)

(** C1: when the body parses but [field] or [language] is absent or empty
    (or anything else that counts as false), the response is 400 with
    [{ error: "Missing required fields." }] and nothing is sent to the
    provider. *)
Theorem missing_fields_400 (cfg : Config) (w : World) (body : value) :
  request_json w = Ret body ->
  truthy (opt_member body P_field) = false
  \/ truthy (opt_member body P_language) = false ->
  POST cfg w
  = (withCors (NextResponse_json (error_body "Missing required fields.") 400),
     []).
Proof.
  intros Hreq Hmiss. unfold POST, attempt. rewrite Hreq.
  assert (missing_fields body = true) as ->; [|reflexivity].
  unfold missing_fields. destruct Hmiss as [-> | ->]; cbn; [reflexivity|].
  apply orb_true_r.
Qed.

Lemma missing_fields_400_witness :
  POST example_config (mkWorld (Ret no_language) silent)
  = (withCors (NextResponse_json (error_body "Missing required fields.") 400),
     []).
Proof.
  apply (missing_fields_400 example_config _ no_language).
  - reflexivity.
  - right. reflexivity.
Defined.

(** C2, as stated, fails: a body that is not JSON is answered with 500 and
    the message of the parse error, not with 400. *)
Lemma malformed_body_is_500 :
  POST example_config malformed
  = (withCors (NextResponse_json
                 (error_body "Unexpected end of JSON input") 500), [])
  /\ status (fst (POST example_config malformed)) <> 400.
Proof. split; [reflexivity | discriminate]. Qed.

(** C2, amended: when [request.json()] throws a [SyntaxError], the
    response is 500 with the message of that error (the generic message
    if it has none) and nothing is sent to the provider. *)
Theorem malformed_body_500 (cfg : Config) (w : World) (e : JsError) :
  request_json w = Throw e ->
  err_name e = "SyntaxError" ->
  POST cfg w
  = (withCors (NextResponse_json
                 (error_body (default "Unable to generate suggestion."
                                (err_message e))) 500), []).
Proof.
  intros Hreq Hname. unfold POST, attempt, recover. rewrite Hreq, Hname.
  cbn. destruct (err_message e); reflexivity.
Qed.

Lemma malformed_body_500_witness :
  POST example_config malformed
  = (withCors (NextResponse_json
                 (error_body "Unexpected end of JSON input") 500), []).
Proof.
  apply (malformed_body_500 example_config malformed SyntaxError_empty);
    reflexivity.
Defined.

(** ** Trimming white space *)

Lemma ws2_lead a b : ws2 a b = true -> ws1 a = false.
Proof.
  unfold ws2, ws1. intros H. apply andb_prop in H as [Ha _].
  apply N.eqb_eq in Ha. rewrite Ha. reflexivity.
Qed.

Lemma ws3_lead a b c : ws3 a b c = true -> ws1 a = false /\ ws2 a b = false.
Proof.
  unfold ws3, ws2, ws1. intros H.
  assert (code a = 225 \/ code a = 226 \/ code a = 227 \/ code a = 239)
    as Hlead.
  { repeat (apply orb_prop in H as [H|H]);
      repeat (apply andb_prop in H as [H ?]);
      apply N.eqb_eq in H; tauto. }
  destruct Hlead as [-> | [-> | [-> | ->]]]; split; reflexivity.
Qed.

Lemma strip_whitespace_only s : whitespace_only s -> trimStart s = EmptyString.
Proof.
  unfold trimStart.
  induction 1 as [|a s Ha _ IH|a b s Hab _ IH|a b c s Habc _ IH].
  - reflexivity.
  - cbn. rewrite Ha. exact IH.
  - cbn. rewrite (ws2_lead _ _ Hab), Hab. exact IH.
  - destruct (ws3_lead _ _ _ Habc) as [Ha Hab].
    cbn. rewrite Ha, Hab, Habc. exact IH.
Qed.

Lemma trim_whitespace_only s : whitespace_only s -> trim s = EmptyString.
Proof.
  intros H. unfold trim. rewrite (strip_whitespace_only _ H). reflexivity.
Qed.

(** ** The call and its outcomes *)

Lemma POST_forwards cfg w c :
  forwards cfg w c ->
  POST cfg w
  = match bind (fst (fetch_with_timeout w c)) relay with
    | Ret r => (r, snd (fetch_with_timeout w c))
    | Throw e => (recover e, snd (fetch_with_timeout w c))
    end.
Proof.
  intros (body & Hreq & Hvalid & Hcall).
  unfold POST, attempt. rewrite Hreq, Hvalid, Hcall.
  destruct (fetch_with_timeout w c) as [fetched trace]. reflexivity.
Qed.

Lemma fetch_overdue w c :
  overdue (provider w c) ->
  fetch_with_timeout w c = (Throw AbortError, [Fetch c; Abort]).
Proof.
  unfold overdue, fetch_with_timeout. destruct (provider w c) as [t s|].
  - intros Ht. assert ((t <? timeout_ms) = false) as ->; [|reflexivity].
    apply N.ltb_ge. lia.
  - reflexivity.
Qed.

Lemma sample_forwards b :
  forwards example_config (mkWorld (Ret sample_request) b) sample_call.
Proof. exists sample_request. repeat split. Qed.

(** C3: when the request is forwarded and the provider has not answered
    when the 20 seconds are over, the call is aborted, the response is 504
    with [{ error: "The request timed out." }], and the call and its abort
    are all that happens to the provider. *)
Theorem timeout_504 (cfg : Config) (w : World) (c : Call) :
  forwards cfg w c ->
  overdue (provider w c) ->
  POST cfg w
  = (withCors (NextResponse_json (error_body "The request timed out.") 504),
     [Fetch c; Abort]).
Proof.
  intros Hfw Hlate. rewrite (POST_forwards _ _ _ Hfw).
  rewrite (fetch_overdue _ _ Hlate). reflexivity.
Qed.

Lemma timeout_504_witness :
  POST example_config (mkWorld (Ret sample_request) silent)
  = (withCors (NextResponse_json (error_body "The request timed out.") 504),
     [Fetch sample_call; Abort]).
Proof.
  apply (timeout_504 example_config _ sample_call).
  - apply sample_forwards.
  - exact I.
Defined.

(** The request is forwarded as the call [c], and the provider answers it
    with [p] before the timer fires. *)
Section Answered.

Context (cfg : Config) (w : World) (c : Call) (t : N) (p : ProviderResponse).
Hypothesis Hforwards : forwards cfg w c.
Hypothesis Hsettles : provider w c = Settles t (Resolves p).
Hypothesis Hin_time : t < timeout_ms.

Lemma fetch_in_time : fetch_with_timeout w c = (Ret p, [Fetch c]).
Proof.
  unfold fetch_with_timeout. rewrite Hsettles.
  apply N.ltb_lt in Hin_time. rewrite Hin_time. reflexivity.
Qed.

Lemma POST_relays :
  POST cfg w
  = match relay p with
    | Ret r => (r, [Fetch c])
    | Throw e => (recover e, [Fetch c])
    end.
Proof. rewrite (POST_forwards _ _ _ Hforwards), fetch_in_time. reflexivity. Qed.

Lemma relay_no_content data :
  ok p = true ->
  provider_json p = Ret data ->
  truthy (choice_content data) = false ->
  POST cfg w
  = (withCors (NextResponse_json (error_body "No suggestion received.") 500),
     [Fetch c]).
Proof.
  intros Hok Hdata Hnone. rewrite POST_relays. unfold relay.
  rewrite Hok, Hdata. cbn. rewrite Hnone. reflexivity.
Qed.

Lemma relay_suggestion data text :
  ok p = true ->
  provider_json p = Ret data ->
  choice_content data = VStr text ->
  text <> EmptyString ->
  POST cfg w
  = (withCors (NextResponse_json (suggestion_body (trim text)) 200),
     [Fetch c]).
Proof.
  intros Hok Hdata Hcontent Hne. rewrite POST_relays. unfold relay.
  rewrite Hok, Hdata. cbn. rewrite Hcontent. cbn.
  destruct text; [contradiction|]. reflexivity.
Qed.

(** A content that is neither false nor a string has no [trim]: the
    [TypeError] goes to the [catch] block. *)
Lemma relay_not_text data :
  ok p = true ->
  provider_json p = Ret data ->
  truthy (choice_content data) = true ->
  (forall text, choice_content data <> VStr text) ->
  POST cfg w
  = (withCors (NextResponse_json
                 (error_body "content.trim is not a function") 500),
     [Fetch c]).
Proof.
  intros Hok Hdata Htrue Hnot. rewrite POST_relays. unfold relay.
  rewrite Hok, Hdata. cbn. rewrite Htrue. cbn.
  destruct (choice_content data); try reflexivity.
  exfalso. eapply Hnot. reflexivity.
Qed.

(** C4, amended: when the provider answers in time with a status outside
    200..299 that a response with a body can have (one in 300..599 other
    than 304), the response has that same status and [{ error: m }],
    where [m] is the string at [error.message] of the provider's body if
    there is one, and "Unable to generate suggestion." if the body does
    not parse or has nothing there. *)
Theorem provider_error_relayed :
  ok p = false ->
  init_error (provider_status p) = None ->
  exists m,
    POST cfg w
    = (withCors (NextResponse_json (error_body m) (provider_status p)),
       [Fetch c])
    /\ (forall data text,
          provider_json p = Ret data ->
          opt_member (opt_member data P_error) P_message = VStr text ->
          m = text)
    /\ (forall e, provider_json p = Throw e ->
          m = "Unable to generate suggestion.")
    /\ (forall data,
          provider_json p = Ret data ->
          opt_member (opt_member data P_error) P_message = VUndefined ->
          m = "Unable to generate suggestion.").
Proof.
  intros Hok Hinit. exists (provider_message p). split.
  - rewrite POST_relays. unfold relay, construct. rewrite Hok, Hinit.
    reflexivity.
  - unfold provider_message. repeat split.
    + intros data text -> ->. reflexivity.
    + intros e ->. reflexivity.
    + intros data -> ->. reflexivity.
Qed.

(** C5: when the provider answers in time with a status in 200..299 and a
    body that parses but has no text at [choices[0].message.content]
    (nothing there, [null], or the empty string: anything that counts as
    false), the response is 500 with
    [{ error: "No suggestion received." }]. *)
Theorem no_content_500 (data : value) :
  ok p = true ->
  provider_json p = Ret data ->
  truthy (choice_content data) = false ->
  POST cfg w
  = (withCors (NextResponse_json (error_body "No suggestion received.") 500),
     [Fetch c]).
Proof. apply relay_no_content. Qed.

(** C6: when the provider answers in time with a status in 200..299 and a
    non-empty string at [choices[0].message.content], the response is 200
    with [{ suggestion: s }], [s] being that string without the white
    space around it. *)
Theorem suggestion_trimmed (data : value) (text : string) :
  ok p = true ->
  provider_json p = Ret data ->
  choice_content data = VStr text ->
  text <> EmptyString ->
  POST cfg w
  = (withCors (NextResponse_json (suggestion_body (trim text)) 200),
     [Fetch c]).
Proof. apply relay_suggestion. Qed.

(** C10: the test for an empty content comes before the trimming.  When
    the provider answers in time with a status in 200..299 and a string of
    white space only at [choices[0].message.content], the response is 200
    with [{ suggestion: "" }] if the string is not empty, and 500 with
    [{ error: "No suggestion received." }] if it is the empty string. *)
Theorem empty_checked_before_trim (data : value) (text : string) :
  ok p = true ->
  provider_json p = Ret data ->
  choice_content data = VStr text ->
  whitespace_only text ->
  POST cfg w
  = (match text with
     | EmptyString =>
         withCors (NextResponse_json
                     (error_body "No suggestion received.") 500)
     | String _ _ =>
         withCors (NextResponse_json (suggestion_body EmptyString) 200)
     end, [Fetch c]).
Proof.
  intros Hok Hdata Hcontent Hws. destruct text as [|a rest].
  - apply (relay_no_content data Hok Hdata).
    rewrite Hcontent. reflexivity.
  - assert (String a rest <> EmptyString) as Hne by discriminate.
    rewrite (relay_suggestion data _ Hok Hdata Hcontent Hne).
    rewrite (trim_whitespace_only _ Hws). reflexivity.
Qed.

End Answered.

(** C4, as stated, fails: the platform has no response with a body for
    the status 304, nor for one above 599.  There line 104 throws, and the
    [catch] block answers 500 instead of the provider's status. *)
Lemma unrepresentable_status_is_500 :
  status (fst (POST example_config
                 (mkWorld (Ret sample_request)
                    (answering 300
                       (mkProviderResponse 304
                          (Ret (failure (VStr "quota exceeded"))))))))
  = 500
  /\ POST example_config
       (mkWorld (Ret sample_request)
          (answering 300
             (mkProviderResponse 304
                (Ret (failure (VStr "quota exceeded"))))))
     = (withCors (NextResponse_json
                    (error_body
                       "Response constructor: Invalid response status code 304")
                    500),
        [Fetch sample_call])
  /\ status (fst (POST example_config
                    (mkWorld (Ret sample_request)
                       (answering 300
                          (mkProviderResponse 600
                             (Ret (failure (VStr "quota exceeded"))))))))
     = 500.
Proof. repeat split. Qed.

Lemma provider_error_relayed_witness :
  POST example_config
    (mkWorld (Ret sample_request)
       (answering 300
          (mkProviderResponse 429 (Ret (failure (VStr "quota exceeded"))))))
  = (withCors (NextResponse_json (error_body "quota exceeded") 429),
     [Fetch sample_call]).
Proof.
  destruct (provider_error_relayed example_config
              (mkWorld (Ret sample_request)
                 (answering 300
                    (mkProviderResponse 429
                       (Ret (failure (VStr "quota exceeded"))))))
              sample_call 300
              (mkProviderResponse 429 (Ret (failure (VStr "quota exceeded"))))
              (sample_forwards _) eq_refl eq_refl eq_refl eq_refl)
    as (m & HPOST & Htext & _ & _).
  rewrite HPOST.
  rewrite (Htext (failure (VStr "quota exceeded")) "quota exceeded"
             eq_refl eq_refl).
  reflexivity.
Defined.

Lemma no_content_500_witness :
  POST example_config
    (mkWorld (Ret sample_request)
       (answering 300 (mkProviderResponse 200 (Ret (VObj [("choices", VArr [])])))))
  = (withCors (NextResponse_json (error_body "No suggestion received.") 500),
     [Fetch sample_call]).
Proof.
  apply (no_content_500 example_config _ sample_call 300
           (mkProviderResponse 200 (Ret (VObj [("choices", VArr [])])))
           (sample_forwards _) eq_refl eq_refl
           (VObj [("choices", VArr [])]));
    reflexivity.
Defined.

Lemma suggestion_trimmed_witness :
  POST example_config
    (mkWorld (Ret sample_request)
       (answering 300
          (mkProviderResponse 200 (Ret (completion (VStr "  Hello world.  "))))))
  = (withCors (NextResponse_json (suggestion_body "Hello world.") 200),
     [Fetch sample_call]).
Proof.
  apply (suggestion_trimmed example_config _ sample_call 300
           (mkProviderResponse 200 (Ret (completion (VStr "  Hello world.  "))))
           (sample_forwards _) eq_refl eq_refl
           (completion (VStr "  Hello world.  ")) "  Hello world.  ");
    [reflexivity .. | discriminate].
Defined.

Lemma empty_checked_before_trim_witness :
  POST example_config
    (mkWorld (Ret sample_request)
       (answering 300 (mkProviderResponse 200 (Ret (completion (VStr "   "))))))
  = (withCors (NextResponse_json (suggestion_body EmptyString) 200),
     [Fetch sample_call])
  /\ POST example_config
      (mkWorld (Ret sample_request)
         (answering 300
            (mkProviderResponse 200 (Ret (completion (VStr EmptyString))))))
    = (withCors (NextResponse_json
                   (error_body "No suggestion received.") 500),
       [Fetch sample_call]).
Proof.
  split.
  - apply (empty_checked_before_trim example_config _ sample_call 300
             (mkProviderResponse 200 (Ret (completion (VStr "   "))))
             (sample_forwards _) eq_refl eq_refl
             (completion (VStr "   ")) "   ");
      [reflexivity ..
      | repeat (apply ws_one; [reflexivity|]); apply ws_empty].
  - apply (empty_checked_before_trim example_config _ sample_call 300
             (mkProviderResponse 200 (Ret (completion (VStr EmptyString))))
             (sample_forwards _) eq_refl eq_refl
             (completion (VStr EmptyString)) EmptyString);
      [reflexivity .. | apply ws_empty].
Defined.

(** ** The prompt *)

#[local] Arguments String.append !_ _ / : simpl nomatch.

Lemma append_assoc (a b c : string) : (a +:+ b) +:+ c = a +:+ b +:+ c.
Proof. induction a as [|x a IH]; simpl; [reflexivity | f_equal; exact IH]. Qed.

Lemma occurs_in_refl t : occurs_in t t.
Proof.
  exists EmptyString, EmptyString. simpl.
  induction t as [|x t IH]; simpl; [reflexivity | f_equal; exact IH].
Qed.

Lemma occurs_in_prefix t u : occurs_in t (t +:+ u).
Proof. exists EmptyString, u. reflexivity. Qed.

Lemma occurs_in_trans t u v : occurs_in t u -> occurs_in u v -> occurs_in t v.
Proof.
  intros (p1 & q1 & ->) (p2 & q2 & ->).
  exists (p2 +:+ p1), (q1 +:+ q2). now rewrite !append_assoc.
Qed.

Lemma join_occurs sep x l : In x l -> occurs_in x (join sep l).
Proof.
  unfold join. induction l as [|a rest IH]; [intros []|].
  intros [-> | Hin].
  - destruct rest; [apply occurs_in_refl | apply occurs_in_prefix].
  - destruct rest as [|b rest]; [destruct Hin|].
    destruct (IH Hin) as (pre & post & Heq).
    exists (a +:+ sep +:+ pre), post.
    change (String.concat sep (a :: b :: rest))
      with (a +:+ sep +:+ String.concat sep (b :: rest)).
    rewrite Heq. now rewrite !append_assoc.
Qed.

Lemma truthy_not_nullish v : truthy v = true -> nullish v = false.
Proof. destruct v; cbn; congruence. Qed.

Lemma member_read v p : nullish v = false -> member v p = Ret (read v p).
Proof. destruct v; cbn; congruence. Qed.

Lemma opt_member_read v p : nullish v = false -> opt_member v p = read v p.
Proof. unfold opt_member. now intros ->. Qed.

Lemma passes_not_nullish body : missing_fields body = false -> nullish body = false.
Proof.
  unfold missing_fields, opt_member. destruct (nullish body); [|reflexivity].
  discriminate.
Qed.

Lemma object_prototype_result k : guidance_result (object_prototype k).
Proof.
  unfold object_prototype, object_prototype_functions. cbn [existsb].
  repeat (destruct (String.eqb k _); [cbn; constructor|]).
  cbn. constructor.
Qed.

Lemma lookup_fieldGuidance k : guidance_result (lookup fieldGuidance k).
Proof.
  unfold lookup, fieldGuidance. cbn [own].
  repeat (destruct (String.eqb k _);
          [constructor; [discriminate | reflexivity]|]).
  apply object_prototype_result.
Qed.

Lemma truthy_text d : d <> EmptyString -> truthy (VStr d) = true.
Proof. destruct d; [contradiction | reflexivity]. Qed.

Lemma build_call_messages cfg body c :
  build_call cfg body = Ret c ->
  exists system user,
    system_content body = Ret system
    /\ user_content body = Ret user
    /\ messages (call_body c)
       = [mkMessage "system" system; mkMessage "user" user].
Proof.
  unfold build_call.
  destruct (system_content body) as [system|e]; cbn [bind]; [|discriminate].
  destruct (user_content body) as [user|e]; cbn [bind]; [|discriminate].
  intros [= <-]. exists system, user. repeat split.
Qed.

Lemma append_empty s : s +:+ EmptyString = s.
Proof. induction s as [|a s IH]; cbn; [reflexivity | now rewrite IH]. Qed.

Lemma join_cons sep x y l :
  join sep (x :: y :: l) = x +:+ sep +:+ join sep (y :: l).
Proof. reflexivity. Qed.

Lemma join_snoc sep x y l :
  join sep ((y :: l) ++ [x]) = join sep (y :: l) +:+ sep +:+ x.
Proof.
  revert y. induction l as [|z l IH]; intros y; [reflexivity|].
  change ((y :: z :: l) ++ [x]) with (y :: ((z :: l) ++ [x])).
  change ((z :: l) ++ [x]) with (z :: (l ++ [x])) at 1.
  rewrite join_cons. change (z :: l ++ [x]) with ((z :: l) ++ [x]).
  rewrite IH, join_cons, !append_assoc. reflexivity.
Qed.

Lemma language_name_cases body :
  (opt_member body P_language = VStr "ar" -> language_name body = "Arabic")
  /\ (opt_member body P_language <> VStr "ar" ->
      language_name body = "English").
Proof.
  unfold language_name. split; [intros ->; reflexivity|]. intros Hl.
  destruct (opt_member body P_language) as [| |b|n|l|i|o|f|];
    try reflexivity.
  destruct l as [|a l]; [reflexivity|].
  destruct a as [[] [] [] [] [] [] [] []]; try reflexivity.
  destruct l as [|a l]; [reflexivity|].
  destruct a as [[] [] [] [] [] [] [] []]; try reflexivity.
  destruct l; [congruence | reflexivity].
Qed.

Lemma guidance_text_cases k : In (guidance_text k) all_guidance_texts.
Proof.
  unfold guidance_text, lookup, fieldGuidance, object_prototype,
    object_prototype_functions.
  cbn [own existsb].
  repeat match goal with
         | |- context [String.eqb k ?x] =>
             destruct (String.eqb_spec k x) as [->|_];
             [cbn; repeat ((left; reflexivity) || right)|]
         end.
  cbn. left. reflexivity.
Qed.

Lemma may_start_prefix t x post s :
  t +:+ post = x +:+ s -> may_start t x = true.
Proof.
  revert x. induction t as [|a t IH]; intros x; [reflexivity|].
  destruct x as [|b x]; [reflexivity|]. cbn. intros [= <- Heq].
  rewrite Ascii.eqb_refl. exact (IH _ Heq).
Qed.

Lemma clean_spec t x s :
  clean t x = true -> occurs_in t (x +:+ s) -> occurs_in t s.
Proof.
  induction x as [|b x IH]; [intros _ H; exact H|].
  cbn [clean]. intros Hc (pre & post & Heq).
  apply andb_prop in Hc as [Hno Hrest]. apply negb_true_iff in Hno.
  destruct pre as [|b' pre].
  - cbn [String.append] in Heq. symmetry in Heq.
    change (String b (x +:+ s)) with (String b x +:+ s) in Heq.
    rewrite (may_start_prefix _ _ _ _ Heq) in Hno. discriminate.
  - cbn [String.append] in Heq. injection Heq as _ Heq.
    apply IH; [exact Hrest|]. exists pre, post. exact Heq.
Qed.

Lemma not_in_empty t : t <> EmptyString -> ~ occurs_in t EmptyString.
Proof.
  intros Hne (pre & post & Heq). destruct pre; [|discriminate].
  destruct t; [contradiction | discriminate].
Qed.

Lemma fronts_clean :
  forallb (fun name =>
     forallb (fun g =>
        clean "Applicant context" (front name g)
        && clean "Applicant context" (front name g +:+ " "))
       all_guidance_texts)
    ["Arabic"; "English"] = true.
Proof. vm_compute. reflexivity. Qed.

Lemma front_clean body k :
  clean "Applicant context" (front (language_name body) (guidance_text k))
  = true
  /\ clean "Applicant context"
       (front (language_name body) (guidance_text k) +:+ " ") = true.
Proof.
  pose proof fronts_clean as H. rewrite forallb_forall in H.
  assert (In (language_name body) ["Arabic"; "English"]) as Hname.
  { unfold language_name.
    destruct (opt_member body P_language) as [| |b|n|l|i|o|f|];
      try (right; left; reflexivity).
    destruct l as [|a l]; [right; left; reflexivity|].
    destruct a as [[] [] [] [] [] [] [] []]; try (right; left; reflexivity).
    destruct l as [|a l]; [right; left; reflexivity|].
    destruct a as [[] [] [] [] [] [] [] []]; try (right; left; reflexivity).
    destruct l; [left | right; left]; reflexivity. }
  specialize (H _ Hname). rewrite forallb_forall in H.
  specialize (H _ (guidance_text_cases k)).
  apply andb_prop in H. exact H.
Qed.

(** The user message, segment by segment. *)
Lemma user_content_pinned body user :
  nullish body = false ->
  user_content body = Ret user ->
  exists k ctx notes,
    to_string (read body P_field) = Ret k
    /\ user = join " " (("Write the paragraph in " +:+ language_name body
                         +:+ ".")
                        :: style_line :: guidance_text k ++ ctx ++ notes)
    /\ (truthy (read body P_applicantDetails) = false -> ctx = [])
    /\ (truthy (read body P_applicantDetails) = true ->
        exists d, to_string (read body P_applicantDetails) = Ret d
                  /\ ctx = ["Applicant context: " +:+ d +:+ "."])
    /\ (truthy (read body P_existingText) = false -> notes = [])
    /\ (truthy (read body P_existingText) = true ->
        exists e, to_string (read body P_existingText) = Ret e
                  /\ notes = ["Applicant notes: " +:+ e])
    /\ Forall (fun s => s <> EmptyString)
         (("Write the paragraph in " +:+ language_name body +:+ ".")
          :: style_line :: guidance_text k ++ ctx ++ notes).
Proof.
  intros Hnn Huser.
  assert (exists k, to_string (read body P_field) = Ret k) as [k Hk].
  { revert Huser. unfold user_content, user_segments, language_line,
      guidance, index.
    rewrite !(member_read _ _ Hnn). cbn [bind].
    destruct (to_string (read body P_field)); [eauto | discriminate]. }
  exists k,
    (if truthy (read body P_applicantDetails)
     then match to_string (read body P_applicantDetails) with
          | Ret dt => ["Applicant context: " +:+ dt +:+ "."]
          | Throw _ => []
          end
     else []),
    (if truthy (read body P_existingText)
     then match to_string (read body P_existingText) with
          | Ret et => ["Applicant notes: " +:+ et]
          | Throw _ => []
          end
     else []).
  split; [exact Hk|].
  revert Huser.
  unfold user_content, user_segments, language_line, guidance,
    context_segment, notes_segment, index, interpolate, language_name,
    guidance_text.
  rewrite !(member_read _ _ Hnn), (opt_member_read _ P_language Hnn).
  cbn [bind]. rewrite Hk. cbn [bind].
  set (lang := match read body P_language with VStr "ar" => "Arabic" | _ => "English" end).
  pose proof (lookup_fieldGuidance k) as Hg.
  destruct (truthy (read body P_applicantDetails)) eqn:Hd;
    [destruct (to_string (read body P_applicantDetails)) as [dt|err] eqn:Hdt;
       cbn [bind]; [|discriminate]|];
    (destruct (truthy (read body P_existingText)) eqn:He;
     [destruct (to_string (read body P_existingText)) as [et|err] eqn:Het;
        cbn [bind]; [|discriminate]|]);
    destruct Hg as [text Hne Hpre| name | |];
    try (destruct text as [|ch text]; [contradiction|]);
    cbn; intros [= <-].
  all: split; [reflexivity|].
  all: split; [try discriminate; reflexivity|].
  all: split; [intros Htr; try discriminate; eauto|].
  all: split; [try discriminate; reflexivity|].
  all: split; [intros Htr; try discriminate; eauto|].
  all: repeat constructor; discriminate.
Qed.

(** C7: the user message of every forwarded request is the language line,
    the style line, the guidance, the applicant context and the applicant
    notes, in this order, joined by single spaces, and none of them
    empty.  The context segment is there only when [applicantDetails]
    counts as true, and is then "Applicant context: d." for its text [d];
    the notes segment only when [existingText] counts as true.  So when
    [applicantDetails] is absent or empty the message has no segment for
    it, no empty place either, and the words "Applicant context" are
    nowhere in it unless the applicant's own notes have them; and when it
    is a non-empty string [d], "Applicant context: d" is in the message. *)
Theorem applicant_context_segment (cfg : Config) (body : value) (c : Call) :
  missing_fields body = false ->
  build_call cfg body = Ret c ->
  exists system user name k ctx notes,
    messages (call_body c)
    = [mkMessage "system" system; mkMessage "user" user]
    /\ user = join " " (("Write the paragraph in " +:+ name +:+ ".")
                        :: style_line :: guidance_text k ++ ctx ++ notes)
    /\ to_string (opt_member body P_field) = Ret k
    /\ (opt_member body P_language = VStr "ar" -> name = "Arabic")
    /\ (opt_member body P_language <> VStr "ar" -> name = "English")
    /\ (truthy (opt_member body P_applicantDetails) = false -> ctx = [])
    /\ (truthy (opt_member body P_applicantDetails) = true ->
        exists d,
          to_string (opt_member body P_applicantDetails) = Ret d
          /\ ctx = ["Applicant context: " +:+ d +:+ "."])
    /\ (truthy (opt_member body P_existingText) = false -> notes = [])
    /\ (truthy (opt_member body P_existingText) = true ->
        exists e,
          to_string (opt_member body P_existingText) = Ret e
          /\ notes = ["Applicant notes: " +:+ e])
    /\ Forall (fun s => s <> EmptyString)
         (("Write the paragraph in " +:+ name +:+ ".")
          :: style_line :: guidance_text k ++ ctx ++ notes)
    /\ (truthy (opt_member body P_applicantDetails) = false ->
        (forall n, In n notes -> ~ occurs_in "Applicant context" n) ->
        ~ occurs_in "Applicant context" user)
    /\ (forall d,
          opt_member body P_applicantDetails = VStr d -> d <> EmptyString ->
          occurs_in ("Applicant context: " +:+ d) user).
Proof.
  intros Hpass Hcall.
  pose proof (passes_not_nullish _ Hpass) as Hnn.
  destruct (build_call_messages _ _ _ Hcall) as (system & user & _ & Huser & Hm).
  destruct (user_content_pinned _ _ Hnn Huser)
    as (k & ctx & notes & Hk & Hjoin & Hnone & Hsome & Hnotes0 & Hnotes1 & Hne).
  destruct (language_name_cases body) as [Har Hen].
  rewrite !(opt_member_read _ _ Hnn) in *.
  exists system, user, (language_name body), k, ctx, notes.
  repeat (split; [assumption|]). split.
  - intros Hd Hclean. rewrite Hjoin, (Hnone Hd). cbn [app].
    destruct (front_clean body k) as [Hfront Hfront'].
    destruct (truthy (read body P_existingText)) eqn:He.
    + destruct (Hnotes1 eq_refl) as (e & _ & Hn).
      set (n := "Applicant notes: " +:+ e) in *.
      rewrite Hn in *. intros Hocc.
      apply (Hclean n); [now left|].
      apply (clean_spec _ _ _ Hfront').
      change (("Write the paragraph in " +:+ language_name body +:+ ".")
              :: style_line :: guidance_text k ++ [n])
        with ((("Write the paragraph in " +:+ language_name body +:+ ".")
               :: style_line :: guidance_text k) ++ [n]) in Hocc.
      rewrite join_snoc, <- append_assoc in Hocc. exact Hocc.
    + rewrite (Hnotes0 eq_refl), app_nil_r. intros Hocc.
      apply (not_in_empty "Applicant context"); [discriminate|].
      apply (clean_spec _ _ _ Hfront). rewrite append_empty. exact Hocc.
  - intros d Hd Hd'.
    assert (ctx = ["Applicant context: " +:+ d +:+ "."]) as Hseg.
    { destruct Hsome as (d0 & Hto & ->);
        [rewrite Hd; apply truthy_text, Hd'|].
      rewrite Hd in Hto. cbn in Hto. congruence. }
    apply (occurs_in_trans _ ("Applicant context: " +:+ d +:+ ".")).
    + rewrite <- append_assoc. apply occurs_in_prefix.
    + rewrite Hjoin. apply join_occurs. rewrite Hseg.
      right. right. apply in_or_app. right. apply in_or_app. left. now left.
Qed.

Lemma applicant_context_segment_witness :
  (exists system user,
     messages (call_body sample_call)
     = [mkMessage "system" system; mkMessage "user" user]
     /\ occurs_in "Applicant context: Single parent of two" user)
  /\ (exists system user,
        messages (call_body plain_call)
        = [mkMessage "system" system; mkMessage "user" user]
        /\ ~ occurs_in "Applicant context" user).
Proof.
  split.
  - destruct (applicant_context_segment example_config sample_request
                sample_call eq_refl eq_refl)
      as (system & user & name & k & ctx & notes
          & Hm & _ & _ & _ & _ & _ & _ & _ & _ & _ & _ & Hd).
    exists system, user. split; [exact Hm|].
    apply (Hd "Single parent of two" eq_refl). discriminate.
  - destruct (applicant_context_segment example_config plain_request
                plain_call eq_refl eq_refl)
      as (system & user & name & k & ctx & notes
          & Hm & _ & _ & _ & _ & _ & _ & Hnotes & _ & _ & Hno & _).
    exists system, user. split; [exact Hm|].
    apply (Hno eq_refl). rewrite (Hnotes eq_refl). intros n [].
Defined.

(** ** A [field] outside the enumeration *)

(** Going through the comparisons of [f] with the names it is not. *)
Ltac exclude_names f Hout :=
  repeat match goal with
         | |- context [String.eqb f ?k] =>
             destruct (String.eqb_spec f k) as [->|_];
             [exfalso; apply Hout; intuition|]
         end.

Lemma own_unknown f :
  ~ In f SuggestionField ->
  own f fieldFocus = None /\ own f fieldGuidance = None.
Proof.
  unfold SuggestionField, fieldFocus, fieldGuidance. cbn [own In].
  intros Hout.
  exclude_names f Hout. split; reflexivity.
Qed.

Lemma object_prototype_unknown f :
  ~ In f inherited -> object_prototype f = VUndefined.
Proof.
  unfold inherited, object_prototype, object_prototype_functions.
  cbn [existsb In]. intros Hout.
  exclude_names f Hout. reflexivity.
Qed.

Lemma lookup_unknown f :
  ~ In f SuggestionField -> ~ In f inherited ->
  lookup fieldFocus f = VUndefined /\ lookup fieldGuidance f = VUndefined.
Proof.
  intros Hout Hown. destruct (own_unknown f Hout) as [Hf Hg].
  unfold lookup. rewrite Hf, Hg. split; apply object_prototype_unknown, Hown.
Qed.

Lemma fetch_trace w c :
  exists rest, snd (fetch_with_timeout w c) = Fetch c :: rest.
Proof.
  unfold fetch_with_timeout. destruct (provider w c) as [t s|]; [|cbn; eauto].
  destruct (t <? timeout_ms); [destruct s|]; cbn; eauto.
Qed.

Lemma POST_forwards_trace cfg w c :
  forwards cfg w c -> exists r rest, POST cfg w = (r, Fetch c :: rest).
Proof.
  intros Hfw. rewrite (POST_forwards _ _ _ Hfw).
  destruct (fetch_trace w c) as [rest ->].
  destruct (bind _ relay); eauto.
Qed.

Lemma user_content_unknown body f :
  nullish body = false ->
  read body P_field = VStr f ->
  lookup fieldGuidance f = VUndefined ->
  printable (read body P_applicantDetails) ->
  printable (read body P_existingText) ->
  exists user, user_content body = Ret user.
Proof.
  intros Hnn Hf Hg [dt Hdt] [et Het].
  unfold user_content, user_segments, language_line, guidance,
    context_segment, notes_segment, index, interpolate.
  rewrite !(member_read _ _ Hnn). cbn [bind]. rewrite Hf.
  cbn [bind to_string]. rewrite Hg.
  destruct (truthy (read body P_applicantDetails)),
    (truthy (read body P_existingText));
    rewrite ?Hdt, ?Het; cbn; eauto.
Qed.

(** C9, as stated, fails: [toString] is a non-empty string outside the
    enumeration, and both lookups find the function that every object
    inherits under that name, whose source text goes into the prompt where
    "undefined" was claimed.  And a [field] outside the enumeration does
    not by itself take the request to the provider: without a language it
    is answered 400, and with notes that cannot be printed 500. *)
Lemma inherited_name_is_found :
  (opt_member inherited_request P_field = VStr "toString"
   /\ ~ In "toString" SuggestionField
   /\ lookup fieldFocus "toString" = VNative "toString"
   /\ lookup fieldGuidance "toString" = VNative "toString"
   /\ lookup fieldFocus "toString" <> VUndefined
   /\ system_content inherited_request
      = Ret (system_before +:+ "function toString() { [native code] }"
             +:+ system_after)
   /\ system_content inherited_request
      <> Ret (system_before +:+ "undefined" +:+ system_after))
  /\ POST example_config (mkWorld (Ret unknown_without_language) silent)
     = (withCors (NextResponse_json
                    (error_body "Missing required fields.") 400), [])
  /\ POST example_config (mkWorld (Ret unknown_with_opaque_notes) silent)
     = (withCors (NextResponse_json
                    (error_body "Cannot convert object to primitive value")
                    500), []).
Proof.
  repeat split; try discriminate.
  cbn. intuition discriminate.
Qed.

(** C9, amended: when [field] is a non-empty string that is neither in
    the enumeration nor a name inherited from [Object.prototype],
    [language] is present and the optional fields print, line 58 lets the
    request pass, both lookups give [undefined], the system message has
    the text "undefined" where the focus belongs, the user message is the
    language line, the style line, the applicant context and the
    applicant notes with no guidance between them, and the call is sent
    to the provider. *)
Theorem unknown_field_forwarded
    (cfg : Config) (w : World) (body : value) (f : string) :
  request_json w = Ret body ->
  opt_member body P_field = VStr f ->
  f <> EmptyString ->
  ~ In f SuggestionField ->
  ~ In f inherited ->
  truthy (opt_member body P_language) = true ->
  printable (opt_member body P_applicantDetails) ->
  printable (opt_member body P_existingText) ->
  missing_fields body = false
  /\ lookup fieldFocus f = VUndefined
  /\ lookup fieldGuidance f = VUndefined
  /\ exists c name ctx notes,
       build_call cfg body = Ret c
       /\ messages (call_body c)
          = [ mkMessage "system"
                (system_before +:+ "undefined" +:+ system_after);
              mkMessage "user"
                (join " " (("Write the paragraph in " +:+ name +:+ ".")
                           :: style_line :: ctx ++ notes)) ]
       /\ (opt_member body P_language = VStr "ar" -> name = "Arabic")
       /\ (opt_member body P_language <> VStr "ar" -> name = "English")
       /\ (truthy (opt_member body P_applicantDetails) = false -> ctx = [])
       /\ (truthy (opt_member body P_applicantDetails) = true ->
           exists d,
             to_string (opt_member body P_applicantDetails) = Ret d
             /\ ctx = ["Applicant context: " +:+ d +:+ "."])
       /\ (truthy (opt_member body P_existingText) = false -> notes = [])
       /\ (truthy (opt_member body P_existingText) = true ->
           exists e,
             to_string (opt_member body P_existingText) = Ret e
             /\ notes = ["Applicant notes: " +:+ e])
       /\ exists r rest, POST cfg w = (r, Fetch c :: rest).
Proof.
  intros Hreq Hf Hne Hout Hown Hlang Hd He.
  assert (missing_fields body = false) as Hpass.
  { unfold missing_fields. rewrite Hf, Hlang, (truthy_text _ Hne).
    reflexivity. }
  pose proof (passes_not_nullish _ Hpass) as Hnn.
  destruct (language_name_cases body) as [Har Hen].
  rewrite !(opt_member_read _ _ Hnn) in *.
  destruct (lookup_unknown f Hout Hown) as [Hfocus Hguide].
  destruct (user_content_unknown body f Hnn Hf Hguide Hd He) as [user Huser].
  repeat (split; [assumption|]).
  assert (system_content body
          = Ret (system_before +:+ "undefined" +:+ system_after)) as Hsys.
  { unfold system_content, index, interpolate.
    rewrite (member_read _ _ Hnn), Hf. cbn [bind to_string].
    rewrite Hfocus. reflexivity. }
  destruct (user_content_pinned _ _ Hnn Huser)
    as (k & ctx & notes & Hk & Hjoin & Hc0 & Hc1 & Hn0 & Hn1 & _).
  rewrite Hf in Hk. cbn in Hk. injection Hk as <-.
  assert (guidance_text f = []) as Hnone
    by (unfold guidance_text; rewrite Hguide; reflexivity).
  rewrite Hnone in Hjoin. cbn [app] in Hjoin.
  eexists _, (language_name body), ctx, notes. split.
  { unfold build_call. rewrite Hsys, Huser. reflexivity. }
  split; [cbn; rewrite Hjoin; reflexivity|].
  repeat (split; [assumption|]).
  apply POST_forwards_trace. exists body. repeat split; try assumption.
  unfold build_call. rewrite Hsys, Huser. reflexivity.
Qed.

Lemma unknown_field_forwarded_witness :
  lookup fieldFocus "housing" = VUndefined
  /\ lookup fieldGuidance "housing" = VUndefined
  /\ messages (call_body unknown_call)
     = [ mkMessage "system" (system_before +:+ "undefined" +:+ system_after);
         mkMessage "user"
           ("Write the paragraph in English. " +:+ style_line) ]
  /\ exists r rest,
       POST example_config (mkWorld (Ret unknown_request) silent)
       = (r, Fetch unknown_call :: rest).
Proof.
  destruct (unknown_field_forwarded example_config
              (mkWorld (Ret unknown_request) silent) unknown_request
              "housing" eq_refl eq_refl)
    as (_ & Hfocus & Hguide & c & name & ctx & notes
        & Hc & Hm & _ & Hen & Hctx & _ & Hnotes & _ & HPOST).
  - discriminate.
  - cbn. intuition discriminate.
  - cbn. intuition discriminate.
  - reflexivity.
  - exists "undefined". reflexivity.
  - exists "undefined". reflexivity.
  - repeat (split; [assumption|]).
    assert (unknown_call = c) as ->
      by (unfold unknown_call, call_of; rewrite Hc; reflexivity).
    split; [|exact HPOST].
    rewrite Hm, Hen, (Hctx eq_refl), (Hnotes eq_refl) by discriminate.
    reflexivity.
Defined.

(** ** The ways through the handler *)

Lemma relay_path_total p : relay_path p (relay p).
Proof.
  unfold relay. destruct (ok p) eqn:Hok; cbn.
  - destruct (provider_json p) as [data|e] eqn:Hdata; cbn.
    + destruct (truthy (choice_content data)) eqn:Htrue; cbn.
      * destruct (choice_content data) as [| |b|n|text|l|o|f|] eqn:Hc; cbn;
          try discriminate;
          try (eapply relay_other; eauto;
               [rewrite Hc; exact Htrue | rewrite Hc; congruence]).
        apply (relay_text p data text); auto.
        intros ->. discriminate.
      * eapply relay_empty; eauto.
    + eapply relay_unparsed; eauto.
  - unfold construct.
    destruct (init_error (provider_status p)) as [e|] eqn:Hinit.
    + exact (relay_unbuilt p e Hok Hinit).
    + exact (relay_refused p Hok Hinit).
Qed.

Lemma fetch_expired w c :
  expired (provider w c) ->
  fetch_with_timeout w c = (Throw AbortError, [Fetch c; Abort]).
Proof.
  unfold expired, fetch_with_timeout. destruct (provider w c) as [t s|].
  - intros Ht. assert ((t <? timeout_ms) = false) as ->; [|reflexivity].
    apply N.ltb_ge. exact Ht.
  - reflexivity.
Qed.

Lemma POST_path_total cfg w : POST_path cfg w (POST cfg w).
Proof.
  destruct (request_json w) as [body|e] eqn:Hreq.
  - destruct (missing_fields body) eqn:Hmiss.
    + replace (POST cfg w)
        with (withCors (NextResponse_json
                          (error_body "Missing required fields.") 400),
              @nil event).
      * eapply path_rejected; eauto.
      * unfold POST, attempt. rewrite Hreq, Hmiss. reflexivity.
    + destruct (build_call cfg body) as [c|e] eqn:Hcall.
      * assert (forwards cfg w c) as Hfw by (exists body; auto).
        rewrite (POST_forwards _ _ _ Hfw).
        destruct (provider w c) as [t s|] eqn:Hp.
        -- destruct (N.ltb_spec t timeout_ms) as [Ht|Ht].
           ++ unfold fetch_with_timeout. rewrite Hp.
              apply N.ltb_lt in Ht as Htb. rewrite Htb.
              destruct s as [p|e]; cbn.
              ** replace (match relay p with
                          | Ret r => (r, [Fetch c])
                          | Throw e => (recover e, [Fetch c])
                          end) with (settle (relay p), [Fetch c])
                   by (destruct (relay p); reflexivity).
                 eapply path_answered; eauto. apply relay_path_total.
              ** eapply path_failed; eauto.
           ++ rewrite fetch_expired by (rewrite Hp; exact Ht). cbn.
              apply path_expired; [exact Hfw|]. rewrite Hp. exact Ht.
        -- rewrite fetch_expired by (rewrite Hp; exact I). cbn.
           apply path_expired; [exact Hfw|]. rewrite Hp. exact I.
      * replace (POST cfg w) with (recover e, @nil event).
        -- eapply path_unbuilt; eauto.
        -- unfold POST, attempt. rewrite Hreq, Hmiss, Hcall. reflexivity.
  - replace (POST cfg w) with (recover e, @nil event).
    + apply path_unreadable. exact Hreq.
    + unfold POST, attempt. rewrite Hreq. reflexivity.
Qed.

Lemma withCors_status r : status (withCors r) = status r.
Proof. reflexivity. Qed.

Lemma withCors_body r : body (withCors r) = body r.
Proof. reflexivity. Qed.

Lemma recover_is_error e :
  exists m st,
    recover e = withCors (NextResponse_json (error_body m) st)
    /\ (st = 500 \/ st = 504).
Proof.
  unfold recover. destruct (String.eqb (err_name e) "AbortError"); eauto.
Qed.

Lemma not_ok_not_successful p : ok p = false -> ~ successful (provider_status p).
Proof.
  unfold ok, successful. intros Hok [Hlo Hhi].
  apply N.leb_le in Hlo, Hhi. rewrite Hlo, Hhi in Hok. discriminate.
Qed.

Lemma settle_relay_shape p o :
  relay_path p o ->
  (exists text, settle o
                = withCors (NextResponse_json (suggestion_body text) 200))
  \/ (exists m st,
        settle o = withCors (NextResponse_json (error_body m) st)
        /\ ~ successful st).
Proof.
  assert (~ successful 500) as H500 by (unfold successful; lia).
  assert (~ successful 504) as H504 by (unfold successful; lia).
  intros [Hok Hinit|e Hok Hinit|e Hok He|data Hok Hd Hc
         |data text Hok Hd Hc Hne|data Hok Hd Ht Hn];
    cbn [settle].
  - right. eauto using not_ok_not_successful.
  - right. destruct (recover_is_error e) as (m & st & -> & [-> | ->]); eauto.
  - right. destruct (recover_is_error e) as (m & st & -> & [-> | ->]); eauto.
  - right. eauto.
  - left. eauto.
  - right. eauto.
Qed.

(** X1: one request makes at most one call to the provider.  The trace of
    [POST] is empty, or the single call built from the request, or that
    call followed by its abort; nothing is sent twice. *)
Theorem at_most_one_call (cfg : Config) (w : World) :
  snd (POST cfg w) = []
  \/ exists c,
       forwards cfg w c
       /\ (snd (POST cfg w) = [Fetch c] \/ snd (POST cfg w) = [Fetch c; Abort]).
Proof.
  destruct (POST_path_total cfg w); cbn [snd]; eauto.
Qed.





(** X3: every response of [POST] is either 200 with a body that holds
    one [suggestion] string, or a status outside 200..299 with a body
    that holds one [error] string. *)
Theorem suggestion_or_error (cfg : Config) (w : World) :
  (exists text,
     fst (POST cfg w)
     = withCors (NextResponse_json (suggestion_body text) 200))
  \/ (exists m st,
        fst (POST cfg w) = withCors (NextResponse_json (error_body m) st)
        /\ ~ successful st).
Proof.
  assert (~ successful 400) as H400 by (unfold successful; lia).
  assert (~ successful 500) as H500 by (unfold successful; lia).
  assert (~ successful 504) as H504 by (unfold successful; lia).
  destruct (POST_path_total cfg w) as [e _|body _ _|body e _ _ _|c _ _|c t e _ _ _|c t p o _ _ _ Ho];
    cbn [fst].
  - right. destruct (recover_is_error e) as (m & st & -> & [-> | ->]); eauto.
  - right. eauto.
  - right. destruct (recover_is_error e) as (m & st & -> & [-> | ->]); eauto.
  - right. eauto.
  - right. destruct (recover_is_error e) as (m & st & -> & [-> | ->]); eauto.
  - apply (settle_relay_shape p o Ho).
Qed.

Lemma recover_status e : status (recover e) <> 200.
Proof.
  destruct (recover_is_error e) as (m & st & -> & [-> | ->]); discriminate.
Qed.

Lemma success_path cfg w r tr :
  POST_path cfg w (r, tr) -> status r = 200 ->
  exists c t p data text,
    forwards cfg w c
    /\ provider w c = Settles t (Resolves p) /\ t < timeout_ms
    /\ ok p = true
    /\ provider_json p = Ret data
    /\ choice_content data = VStr text /\ text <> EmptyString
    /\ r = withCors (NextResponse_json (suggestion_body (trim text)) 200)
    /\ tr = [Fetch c].
Proof.
  inversion 1 as [e|body|body e|c|c t e|c t p o Hfw Hp Ht Ho]; subst;
    intros Hst; try (exfalso; revert Hst; apply recover_status);
    try discriminate.
  destruct Ho as [Hok Hinit|e Hok Hinit|e Hok He|data Hok Hd Hc
                 |data text Hok Hd Hc Hne|data Hok Hd Htr Hn];
    cbn [settle] in *;
    try (exfalso; revert Hst; apply recover_status); try discriminate.
  - exfalso. rewrite withCors_status in Hst. cbn in Hst.
    unfold ok in Hok. rewrite Hst in Hok. discriminate.
  - exists c, t, p, data, text. repeat split; assumption.
Qed.

(** X4: a 200 is never made up.  Whenever [POST] answers 200, the request
    was forwarded, the provider answered in time with a status in 200..299
    and a non-empty string at [choices[0].message.content], and the body
    is that string, trimmed; the call is the only thing sent. *)
Theorem success_comes_from_provider (cfg : Config) (w : World) :
  status (fst (POST cfg w)) = 200 ->
  exists c t p data text,
    forwards cfg w c
    /\ provider w c = Settles t (Resolves p) /\ t < timeout_ms
    /\ ok p = true
    /\ provider_json p = Ret data
    /\ choice_content data = VStr text /\ text <> EmptyString
    /\ POST cfg w
       = (withCors (NextResponse_json (suggestion_body (trim text)) 200),
          [Fetch c]).
Proof.
  intros Hst.
  destruct (success_path cfg w (fst (POST cfg w)) (snd (POST cfg w)))
    as (c & t & p & data & text & Hfw & Hp & Ht & Hok & Hd & Hc & Hne & Hr & Htr);
    [rewrite <- surjective_pairing; apply POST_path_total | exact Hst |].
  exists c, t, p, data, text. repeat (split; [assumption|]).
  rewrite (surjective_pairing (POST cfg w)), Hr, Htr. reflexivity.
Qed.

Lemma success_comes_from_provider_witness :
  exists c t p data text,
    provider
      (mkWorld (Ret sample_request)
         (answering 300
            (mkProviderResponse 200
               (Ret (completion (VStr "  Hello world.  "))))))
      c = Settles t (Resolves p)
    /\ provider_json p = Ret data
    /\ choice_content data = VStr text.
Proof.
  destruct (success_comes_from_provider example_config
              (mkWorld (Ret sample_request)
                 (answering 300
                    (mkProviderResponse 200
                       (Ret (completion (VStr "  Hello world.  "))))))
              eq_refl)
    as (c & t & p & data & text & _ & Hp & _ & _ & Hd & Hc & _).
  exists c, t, p, data, text. repeat split; assumption.
Defined.

(** ** A trimmed text has no white space around it *)

(** Induction for a function that drops up to three bytes at a time. *)
Lemma string_ind3 (P : string -> Prop) :
  P EmptyString ->
  (forall a, P (String a EmptyString)) ->
  (forall a b, P (String a (String b EmptyString))) ->
  (forall a b c r,
     P (String b (String c r)) -> P (String c r) -> P r ->
     P (String a (String b (String c r)))) ->
  forall s, P s.
Proof.
  intros H0 H1 H2 H3 s.
  assert (P s /\ (forall a r, s = String a r -> P r)
          /\ (forall a b r, s = String a (String b r) -> P r)) as [Hs _];
    [|exact Hs].
  induction s as [|a s (Hs & Htail & Htail2)].
  - repeat split; [exact H0 | discriminate | discriminate].
  - repeat split.
    + destruct s as [|b [|c r]]; [apply H1 | apply H2 |].
      apply H3; [exact Hs | eapply Htail; reflexivity
                | eapply Htail2; reflexivity].
    + intros a' r [= _ <-]. exact Hs.
    + intros a' b r [= _ ->]. eapply Htail. reflexivity.
Qed.

Lemma strip_fixed back s : leads back s = false -> strip back s = s.
Proof.
  destruct s as [|a [|b [|c r]]]; cbn; try reflexivity.
  - destruct (ws1 a); [discriminate | reflexivity].
  - destruct (ws1 a); [discriminate|]. cbn.
    destruct (if back then ws2 b a else ws2 a b); [discriminate | reflexivity].
  - destruct (ws1 a); [discriminate|]. cbn.
    destruct (if back then ws2 b a else ws2 a b); [discriminate|]. cbn.
    destruct (if back then ws3 c b a else ws3 a b c);
      [discriminate | reflexivity].
Qed.

Lemma strip_leads back s : leads back (strip back s) = false.
Proof.
  induction s as [|a|a b|a b c r IH1 IH2 IH3] using string_ind3.
  - reflexivity.
  - cbn. destruct (ws1 a) eqn:Ha; cbn; [reflexivity|].
    rewrite Ha. reflexivity.
  - cbn. destruct (ws1 a) eqn:Ha.
    + destruct (ws1 b) eqn:Hb; cbn; [reflexivity|]. rewrite Hb. reflexivity.
    + destruct (if back then ws2 b a else ws2 a b) eqn:Hab; cbn;
        [reflexivity|]. rewrite Ha, Hab. reflexivity.
  - change (strip back (String a (String b (String c r))))
      with (if ws1 a then strip back (String b (String c r))
            else if (if back then ws2 b a else ws2 a b)
                 then strip back (String c r)
                 else if (if back then ws3 c b a else ws3 a b c)
                      then strip back r
                      else String a (String b (String c r))).
    destruct (ws1 a) eqn:Ha; [exact IH1|].
    destruct (if back then ws2 b a else ws2 a b) eqn:Hab; [exact IH2|].
    destruct (if back then ws3 c b a else ws3 a b c) eqn:Habc; [exact IH3|].
    cbn. rewrite Ha, Hab, Habc. reflexivity.
Qed.

Lemma strip_idempotent back s : strip back (strip back s) = strip back s.
Proof. apply strip_fixed, strip_leads. Qed.

Lemma strip_suffix back s : exists v, s = v +:+ strip back s.
Proof.
  induction s as [|a|a b|a b c r IH1 IH2 IH3] using string_ind3.
  - exists EmptyString. reflexivity.
  - cbn. destruct (ws1 a).
    + exists (String a EmptyString). reflexivity.
    + exists EmptyString. reflexivity.
  - cbn. destruct (ws1 a).
    + destruct (ws1 b).
      * exists (String a (String b EmptyString)). reflexivity.
      * exists (String a EmptyString). reflexivity.
    + destruct (if back then ws2 b a else ws2 a b).
      * exists (String a (String b EmptyString)). reflexivity.
      * exists EmptyString. reflexivity.
  - change (strip back (String a (String b (String c r))))
      with (if ws1 a then strip back (String b (String c r))
            else if (if back then ws2 b a else ws2 a b)
                 then strip back (String c r)
                 else if (if back then ws3 c b a else ws3 a b c)
                      then strip back r
                      else String a (String b (String c r))).
    destruct (ws1 a).
    { destruct IH1 as [v Hv]. exists (String a v). cbn [String.append].
      f_equal. exact Hv. }
    destruct (if back then ws2 b a else ws2 a b).
    { destruct IH2 as [v Hv]. exists (String a (String b v)).
      cbn [String.append]. do 2 f_equal. exact Hv. }
    destruct (if back then ws3 c b a else ws3 a b c).
    { destruct IH3 as [v Hv]. exists (String a (String b (String c v))).
      cbn [String.append]. do 3 f_equal. exact Hv. }
    exists EmptyString. reflexivity.
Qed.

Lemma rev_app_rev_app s1 s2 s3 :
  String.rev_app (String.rev_app s1 s2) s3 = String.rev_app s2 (s1 +:+ s3).
Proof.
  revert s2 s3. induction s1 as [|a s1 IH]; intros s2 s3; cbn;
    [reflexivity|]. rewrite IH. reflexivity.
Qed.

Lemma rev_involutive s : String.rev (String.rev s) = s.
Proof. unfold String.rev. rewrite rev_app_rev_app. cbn. apply append_empty. Qed.

Lemma rev_app_append s1 s2 s3 :
  String.rev_app (s1 +:+ s2) s3 = String.rev_app s2 (String.rev_app s1 s3).
Proof.
  revert s3. induction s1 as [|a s1 IH]; intros s3; cbn; [reflexivity|].
  apply IH.
Qed.

Lemma rev_app_spec s1 s2 : String.rev_app s1 s2 = String.rev s1 +:+ s2.
Proof.
  unfold String.rev. revert s2.
  induction s1 as [|a s1 IH]; intros s2; cbn; [reflexivity|].
  rewrite IH, (IH (String a EmptyString)), append_assoc. reflexivity.
Qed.

(** What [trimEnd] gives is the front of the text. *)
Lemma trimEnd_prefix s : exists u, s = trimEnd s +:+ u.
Proof.
  unfold trimEnd. destruct (strip_suffix true (String.rev s)) as [v Hv].
  exists (String.rev v).
  rewrite <- (rev_involutive s) at 1. rewrite Hv at 1.
  unfold String.rev at 1. rewrite rev_app_append, rev_app_spec.
  reflexivity.
Qed.

Lemma leads_append t u : leads false t = true -> leads false (t +:+ u) = true.
Proof.
  destruct t as [|a [|b [|c r]]]; cbn; try discriminate.
  - rewrite orb_false_r. intros ->. reflexivity.
  - destruct (ws1 a); [reflexivity|]. cbn. rewrite orb_false_r.
    intros ->. reflexivity.
  - auto.
Qed.

Lemma trim_idempotent s : trim (trim s) = trim s.
Proof.
  assert (trimStart (trim s) = trim s) as Hstart.
  { apply strip_fixed. unfold trim.
    destruct (trimEnd_prefix (trimStart s)) as [u Hu].
    destruct (leads false (trimEnd (trimStart s))) eqn:Hl; [|reflexivity].
    apply (leads_append _ u) in Hl. rewrite <- Hu in Hl.
    unfold trimStart in Hl. rewrite strip_leads in Hl. discriminate. }
  unfold trim at 1. rewrite Hstart. unfold trim, trimEnd.
  rewrite rev_involutive, strip_idempotent. reflexivity.
Qed.

Lemma trim_no_leading s : leads false (trim s) = false.
Proof.
  unfold trim. destruct (trimEnd_prefix (trimStart s)) as [u Hu].
  destruct (leads false (trimEnd (trimStart s))) eqn:Hl; [|reflexivity].
  apply (leads_append _ u) in Hl. rewrite <- Hu in Hl.
  unfold trimStart in Hl. rewrite strip_leads in Hl. discriminate.
Qed.

Lemma trim_no_trailing s : leads true (String.rev (trim s)) = false.
Proof.
  unfold trim, trimEnd. rewrite rev_involutive. apply strip_leads.
Qed.

Lemma suggestion_path cfg w r tr text :
  POST_path cfg w (r, tr) ->
  body r = Some (suggestion_body text) ->
  exists raw, text = trim raw.
Proof.
  inversion 1 as [e|b|b e|c|c t e|c t p o Hfw Hp Ht Ho]; subst;
    try (destruct (recover_is_error e) as (m & st & -> & _));
    try discriminate.
  destruct Ho as [Hok Hinit|e Hok Hinit|e Hok He|data Hok Hd Hc
                 |data raw Hok Hd Hc Hne|data Hok Hd Htr Hn];
    cbn [settle];
    try (destruct (recover_is_error e) as (m & st & -> & _));
    try discriminate.
  intros [= <-]. eauto.
Qed.

(** X5: a suggestion that [POST] returns has no white space around it:
    it does not open with a white space character, does not close with
    one, and trimming it again changes nothing. *)
Theorem suggestion_has_no_padding (cfg : Config) (w : World) (text : string) :
  body (fst (POST cfg w)) = Some (suggestion_body text) ->
  leads false text = false
  /\ leads true (String.rev text) = false
  /\ trim text = text.
Proof.
  intros Hbody.
  destruct (suggestion_path cfg w (fst (POST cfg w)) (snd (POST cfg w)) text)
    as [raw ->];
    [rewrite <- surjective_pairing; apply POST_path_total | exact Hbody |].
  auto using trim_no_leading, trim_no_trailing, trim_idempotent.
Qed.

Lemma suggestion_has_no_padding_witness :
  leads false "Hello world." = false
  /\ leads true (String.rev "Hello world.") = false
  /\ trim "Hello world." = "Hello world.".
Proof.
  apply (suggestion_has_no_padding example_config
           (mkWorld (Ret sample_request)
              (answering 300
                 (mkProviderResponse 200
                    (Ret (completion (VStr "  Hello world.  "))))))).
  reflexivity.
Defined.

(** ** More on the prompt *)

Lemma user_content_exact body user :
  nullish body = false ->
  user_content body = Ret user ->
  exists gtext ctx notes,
    user = join " " (("Write the paragraph in " +:+ language_name body +:+ ".")
                     :: style_line :: gtext ++ ctx ++ notes)
    /\ (forall f g, read body P_field = VStr f ->
                    own f fieldGuidance = Some g -> gtext = [g])
    /\ (truthy (read body P_applicantDetails) = false -> ctx = [])
    /\ (forall d, read body P_applicantDetails = VStr d -> d <> EmptyString ->
          ctx = ["Applicant context: " +:+ d +:+ "."])
    /\ (truthy (read body P_existingText) = false -> notes = [])
    /\ (forall e, read body P_existingText = VStr e -> e <> EmptyString ->
          notes = ["Applicant notes: " +:+ e]).
Proof.
  intros Hnn Huser.
  exists
    (match to_string (read body P_field) with
     | Ret k =>
         match lookup fieldGuidance k with
         | VStr text => [text]
         | VNative name => ["function " +:+ name +:+ "() { [native code] }"]
         | VObjectPrototype => ["[object Object]"]
         | _ => []
         end
     | Throw _ => []
     end),
    (if truthy (read body P_applicantDetails)
     then match to_string (read body P_applicantDetails) with
          | Ret dt => ["Applicant context: " +:+ dt +:+ "."]
          | Throw _ => []
          end
     else []),
    (if truthy (read body P_existingText)
     then match to_string (read body P_existingText) with
          | Ret et => ["Applicant notes: " +:+ et]
          | Throw _ => []
          end
     else []).
  revert Huser.
  unfold user_content, user_segments, language_line, guidance,
    context_segment, notes_segment, index, interpolate, language_name.
  rewrite !(member_read _ _ Hnn), (opt_member_read _ P_language Hnn).
  cbn [bind].
  set (lang := match read body P_language with VStr "ar" => "Arabic" | _ => "English" end).
  destruct (to_string (read body P_field)) as [k|err] eqn:Hk; cbn [bind];
    [|discriminate].
  pose proof (lookup_fieldGuidance k) as Hg.
  remember (lookup fieldGuidance k) as g eqn:Eg.
  destruct (truthy (read body P_applicantDetails)) eqn:Hd;
    [destruct (to_string (read body P_applicantDetails)) as [dt|err] eqn:Hdt;
       cbn [bind]; [|discriminate]|];
    (destruct (truthy (read body P_existingText)) eqn:He;
     [destruct (to_string (read body P_existingText)) as [et|err] eqn:Het;
        cbn [bind]; [|discriminate]|]);
    destruct Hg as [text Hne Hpre| name | |];
    try (destruct text as [|ch text]; [contradiction|]);
    cbn; intros [= <-].
  all: split; [reflexivity|].
  all: split;
    [intros f0 g0 Hf0 Hown; rewrite Hf0 in Hk; cbn in Hk;
     injection Hk as <-; change (own f0 fieldGuidance = Some g0) in Hown;
     unfold lookup in Eg; rewrite Hown in Eg; congruence|].
  all: split; [try discriminate; reflexivity|].
  all: split;
    [intros d Hread Hd'; try (rewrite Hread in Hdt; cbn in Hdt;
                              injection Hdt as <-; reflexivity);
     rewrite Hread, (truthy_text _ Hd') in Hd; discriminate|].
  all: split; [try discriminate; reflexivity|].
  all: intros e Hread He'; try (rewrite Hread in Het; cbn in Het;
                                injection Het as <-; reflexivity);
    rewrite Hread, (truthy_text _ He') in He; discriminate.
Qed.

Lemma forwarded_messages cfg body c :
  missing_fields body = false ->
  build_call cfg body = Ret c ->
  nullish body = false
  /\ exists system user,
       system_content body = Ret system
       /\ user_content body = Ret user
       /\ messages (call_body c)
          = [mkMessage "system" system; mkMessage "user" user].
Proof.
  intros Hpass Hcall. split; [apply passes_not_nullish, Hpass|].
  apply (build_call_messages cfg), Hcall.
Qed.

(** X6: the user message of a forwarded request opens with
    "Write the paragraph in Arabic." when [language] is exactly the
    string "ar", and with "Write the paragraph in English." for any other
    language that passes line 58. *)
Theorem prompt_language (cfg : Config) (body : value) (c : Call) :
  missing_fields body = false ->
  build_call cfg body = Ret c ->
  exists system name rest,
    messages (call_body c)
    = [ mkMessage "system" system;
        mkMessage "user" ("Write the paragraph in " +:+ name +:+ ". " +:+ rest) ]
    /\ (opt_member body P_language = VStr "ar" -> name = "Arabic")
    /\ (opt_member body P_language <> VStr "ar" -> name = "English").
Proof.
  intros Hpass Hcall.
  destruct (forwarded_messages _ _ _ Hpass Hcall)
    as (Hnn & system & user & _ & Huser & Hm).
  destruct (user_content_exact _ _ Hnn Huser)
    as (gtext & ctx & notes & -> & _).
  exists system, (language_name body),
    (join " " (style_line :: gtext ++ ctx ++ notes)).
  split; [|split].
  - rewrite Hm, join_cons, !append_assoc. reflexivity.
  - unfold language_name. intros ->. reflexivity.
  - unfold language_name. intros Hl.
    destruct (opt_member body P_language) as [| |b|n|l|i|o|f|];
      try reflexivity.
    destruct l as [|a l]; [reflexivity|].
    destruct a as [[] [] [] [] [] [] [] []]; try reflexivity.
    destruct l as [|a l]; [reflexivity|].
    destruct a as [[] [] [] [] [] [] [] []]; try reflexivity.
    destruct l; [congruence | reflexivity].
Qed.

Lemma prompt_language_witness :
  (exists system rest,
     messages (call_body noted_call)
     = [ mkMessage "system" system;
         mkMessage "user" ("Write the paragraph in Arabic. " +:+ rest) ])
  /\ (exists system rest,
        messages (call_body french_call)
        = [ mkMessage "system" system;
            mkMessage "user" ("Write the paragraph in English. " +:+ rest) ]).
Proof.
  split.
  - destruct (prompt_language example_config noted_request noted_call
                eq_refl eq_refl)
      as (system & name & rest & Hm & Har & _).
    rewrite (Har eq_refl) in Hm. exists system, rest. exact Hm.
  - destruct (prompt_language example_config french_request french_call
                eq_refl eq_refl)
      as (system & name & rest & Hm & _ & Hen).
    rewrite Hen in Hm by discriminate. exists system, rest. exact Hm.
Defined.

Lemma own_enumerated f :
  In f SuggestionField ->
  exists focus g, own f fieldFocus = Some focus /\ own f fieldGuidance = Some g.
Proof.
  cbn. intros [<- | [<- | [<- | []]]]; eexists _, _; split; reflexivity.
Qed.

Lemma join_head sep x l : exists rest, join sep (x :: l) = x +:+ rest.
Proof.
  destruct l as [|y l].
  - exists EmptyString. cbn. symmetry. apply append_empty.
  - exists (sep +:+ join sep (y :: l)). apply join_cons.
Qed.

(** X7: for each of the three fields of the enumeration, the system
    message is the fixed instruction around that field's focus, and the
    user message carries that field's guidance right after the language
    line and the style line. *)
Theorem enumerated_field_prompt
    (cfg : Config) (body : value) (c : Call) (f : string) :
  missing_fields body = false ->
  build_call cfg body = Ret c ->
  opt_member body P_field = VStr f ->
  In f SuggestionField ->
  exists focus g name rest,
    own f fieldFocus = Some focus
    /\ own f fieldGuidance = Some g
    /\ messages (call_body c)
       = [ mkMessage "system" (system_before +:+ focus +:+ system_after);
           mkMessage "user"
             ("Write the paragraph in " +:+ name +:+ ". "
              +:+ style_line +:+ " " +:+ g +:+ rest) ].
Proof.
  intros Hpass Hcall Hf Hin.
  destruct (forwarded_messages _ _ _ Hpass Hcall)
    as (Hnn & system & user & Hsys & Huser & Hm).
  rewrite (opt_member_read _ _ Hnn) in Hf.
  destruct (own_enumerated f Hin) as (focus & g & Hfocus & Hg).
  destruct (user_content_exact _ _ Hnn Huser)
    as (gtext & ctx & notes & -> & Hgtext & _).
  rewrite (Hgtext f g Hf Hg) in Hm.
  destruct (join_head " " g (ctx ++ notes)) as [rest Hrest].
  exists focus, g, (language_name body), rest.
  repeat (split; [assumption|]).
  rewrite Hm. f_equal; [|f_equal]; f_equal.
  - revert Hsys. unfold system_content, index, interpolate, lookup.
    rewrite (member_read _ _ Hnn), Hf. cbn [bind to_string].
    rewrite Hfocus. cbn. congruence.
  - change ([g] ++ ctx ++ notes) with (g :: (ctx ++ notes)).
    rewrite !join_cons, Hrest, !append_assoc. reflexivity.
Qed.

Lemma enumerated_field_prompt_witness :
  exists name rest,
    messages (call_body noted_call)
    = [ mkMessage "system"
          (system_before
           +:+ "employment status, hours or income level, stability of work, "
           +:+ "caregiving or health barriers, and any recent changes "
           +:+ "affecting employment" +:+ system_after);
        mkMessage "user"
          ("Write the paragraph in " +:+ name +:+ ". " +:+ style_line
           +:+ " Start by describing the current work situation or lack of "
           +:+ "work. Include hours worked, pay level, or caregiving/health "
           +:+ "limits if relevant. Avoid greetings or introductions."
           +:+ rest) ].
Proof.
  destruct (enumerated_field_prompt example_config noted_request noted_call
              "employmentCircumstances" eq_refl eq_refl eq_refl)
    as (focus & g & name & rest & Hfocus & Hg & Hm).
  - cbn. auto.
  - injection Hfocus as <-. injection Hg as <-.
    exists name, rest. rewrite Hm. reflexivity.
Defined.

(** X8: when [existingText] is a non-empty string, the user message of a
    forwarded request ends with " Applicant notes: " followed by that
    string as it is; the notes come last, after any applicant context. *)
Theorem notes_close_the_prompt
    (cfg : Config) (body : value) (c : Call) (e : string) :
  missing_fields body = false ->
  build_call cfg body = Ret c ->
  opt_member body P_existingText = VStr e ->
  e <> EmptyString ->
  exists system front,
    messages (call_body c)
    = [ mkMessage "system" system;
        mkMessage "user" (front +:+ " Applicant notes: " +:+ e) ].
Proof.
  intros Hpass Hcall He Hne.
  destruct (forwarded_messages _ _ _ Hpass Hcall)
    as (Hnn & system & user & _ & Huser & Hm).
  rewrite (opt_member_read _ _ Hnn) in He.
  destruct (user_content_exact _ _ Hnn Huser)
    as (gtext & ctx & notes & -> & _ & _ & _ & _ & Hnotes).
  rewrite (Hnotes e He Hne) in Hm.
  set (line := "Write the paragraph in " +:+ language_name body +:+ ".") in *.
  exists system, (join " " (line :: style_line :: gtext ++ ctx)).
  rewrite Hm. do 2 f_equal.
  replace (line :: style_line :: gtext ++ ctx ++ ["Applicant notes: " +:+ e])
    with ((line :: style_line :: gtext ++ ctx) ++ ["Applicant notes: " +:+ e]).
  - rewrite join_snoc. reflexivity.
  - cbn [app]. now rewrite <- app_assoc.
Qed.

Lemma notes_close_the_prompt_witness :
  exists system front,
    messages (call_body noted_call)
    = [ mkMessage "system" system;
        mkMessage "user"
          (front +:+ " Applicant notes: I lost my job in March") ].
Proof.
  apply (notes_close_the_prompt example_config noted_request noted_call
           "I lost my job in March" eq_refl eq_refl eq_refl).
  discriminate.
Defined.

(** ** Failures on the way *)

Lemma recover_other e :
  err_name e <> "AbortError" ->
  recover e
  = withCors (NextResponse_json
                (error_body (default "Unable to generate suggestion."
                               (err_message e))) 500).
Proof.
  intros Hname. unfold recover.
  destruct (String.eqb_spec (err_name e) "AbortError") as [Heq|_];
    [contradiction|].
  destruct (err_message e); reflexivity.
Qed.

(** X9: when the call to the provider fails on its own before the timer
    fires (the promise of [fetch] rejects with an error not named
    [AbortError]), the response is 500 with the message of that error, or
    "Unable to generate suggestion." if it has none.  The call is not sent
    again; the timer is not cleared on this way out, so its abort still
    runs, on the call that has failed. *)
Theorem network_failure_500
    (cfg : Config) (w : World) (c : Call) (t : N) (e : JsError) :
  forwards cfg w c ->
  provider w c = Settles t (Rejects e) -> t < timeout_ms ->
  err_name e <> "AbortError" ->
  POST cfg w
  = (withCors (NextResponse_json
                 (error_body (default "Unable to generate suggestion."
                                (err_message e))) 500),
     [Fetch c; Abort]).
Proof.
  intros Hfw Hp Ht Hname. rewrite (POST_forwards _ _ _ Hfw).
  unfold fetch_with_timeout. rewrite Hp.
  apply N.ltb_lt in Ht. rewrite Ht. cbn.
  rewrite (recover_other _ Hname). reflexivity.
Qed.

Lemma network_failure_500_witness :
  POST example_config (mkWorld (Ret sample_request) (failing 40 fetch_failed))
  = (withCors (NextResponse_json (error_body "fetch failed") 500),
     [Fetch sample_call; Abort]).
Proof.
  apply (network_failure_500 example_config _ sample_call 40 fetch_failed);
    [apply sample_forwards | reflexivity | reflexivity | discriminate].
Defined.

(** X12: the [catch] block tells a timeout by the name of the exception
    alone.  When [request.json()] itself throws an error named
    [AbortError], the response is 504 with
    [{ error: "The request timed out." }] although nothing was sent to
    the provider. *)
Theorem abort_name_504 (cfg : Config) (w : World) (e : JsError) :
  request_json w = Throw e ->
  err_name e = "AbortError" ->
  POST cfg w
  = (withCors (NextResponse_json (error_body "The request timed out.") 504),
     []).
Proof.
  intros Hreq Hname. unfold POST, attempt, recover. rewrite Hreq, Hname.
  reflexivity.
Qed.

Lemma abort_name_504_witness :
  POST example_config (mkWorld (Throw AbortError) silent)
  = (withCors (NextResponse_json (error_body "The request timed out.") 504),
     []).
Proof.
  apply (abort_name_504 example_config _ AbortError); reflexivity.
Defined.

Section AnsweredBadly.

Context (cfg : Config) (w : World) (c : Call) (t : N) (p : ProviderResponse).
Hypothesis Hforwards : forwards cfg w c.
Hypothesis Hsettles : provider w c = Settles t (Resolves p).
Hypothesis Hin_time : t < timeout_ms.

(** X10: when the provider answers in time with a status in 200..299 but
    a body that [response.json()] cannot parse, the response is 500 with
    the message of the parse error (a status outside 200..299 with such a
    body keeps its status and gets the generic message instead). *)
Theorem unparsed_success_500 (e : JsError) :
  ok p = true ->
  provider_json p = Throw e ->
  err_name e <> "AbortError" ->
  POST cfg w
  = (withCors (NextResponse_json
                 (error_body (default "Unable to generate suggestion."
                                (err_message e))) 500),
     [Fetch c]).
Proof.
  intros Hok He Hname.
  rewrite (POST_relays cfg w c t p Hforwards Hsettles Hin_time).
  unfold relay. rewrite Hok, He. cbn. rewrite (recover_other _ Hname).
  reflexivity.
Qed.

(** X11: when the provider answers in time with a status in 200..299 and
    something at [choices[0].message.content] that counts as true but is
    not a string (a number, [true], an array, an object), the call of
    [trim] throws and the response is 500 with
    [{ error: "content.trim is not a function" }]. *)
Theorem content_not_text_500 (data : value) :
  ok p = true ->
  provider_json p = Ret data ->
  truthy (choice_content data) = true ->
  (forall text, choice_content data <> VStr text) ->
  POST cfg w
  = (withCors (NextResponse_json
                 (error_body "content.trim is not a function") 500),
     [Fetch c]).
Proof. apply (relay_not_text cfg w c t p Hforwards Hsettles Hin_time). Qed.

(** X18: when the provider answers in time with a status outside 200..299
    that a response with a body can have (one in 300..599 other than 304)
    and a body that parses but has no string at [error.message] (nothing
    there, or a number, or [error] is itself a string), the response
    keeps the provider's status and says
    "Unable to generate suggestion.". *)
Theorem provider_error_without_text (data : value) :
  ok p = false ->
  init_error (provider_status p) = None ->
  provider_json p = Ret data ->
  (forall text, opt_member (opt_member data P_error) P_message <> VStr text) ->
  POST cfg w
  = (withCors (NextResponse_json
                 (error_body "Unable to generate suggestion.")
                 (provider_status p)),
     [Fetch c]).
Proof.
  intros Hok Hinit Hdata Hnot.
  rewrite (POST_relays cfg w c t p Hforwards Hsettles Hin_time).
  unfold relay, construct, provider_message. rewrite Hok, Hinit, Hdata. cbn.
  destruct (opt_member (opt_member data P_error) P_message);
    try reflexivity.
  exfalso. eapply Hnot. reflexivity.
Qed.

End AnsweredBadly.

Lemma unparsed_success_500_witness :
  POST example_config
    (mkWorld (Ret sample_request)
       (answering 300 (mkProviderResponse 200 (Throw SyntaxError_empty))))
  = (withCors (NextResponse_json
                 (error_body "Unexpected end of JSON input") 500),
     [Fetch sample_call]).
Proof.
  apply (unparsed_success_500 example_config _ sample_call 300
           (mkProviderResponse 200 (Throw SyntaxError_empty))
           (sample_forwards _) eq_refl eq_refl SyntaxError_empty);
    [reflexivity | reflexivity | discriminate].
Defined.

Lemma content_not_text_500_witness :
  POST example_config
    (mkWorld (Ret sample_request)
       (answering 300 (mkProviderResponse 200 (Ret (completion (VNum "5"))))))
  = (withCors (NextResponse_json
                 (error_body "content.trim is not a function") 500),
     [Fetch sample_call]).
Proof.
  apply (content_not_text_500 example_config _ sample_call 300
           (mkProviderResponse 200 (Ret (completion (VNum "5"))))
           (sample_forwards _) eq_refl eq_refl (completion (VNum "5")));
    [reflexivity | reflexivity | reflexivity | discriminate].
Defined.

Lemma provider_error_without_text_witness :
  POST example_config
    (mkWorld (Ret sample_request)
       (answering 300
          (mkProviderResponse 503 (Ret (VObj [("error", VStr "overloaded")])))))
  = (withCors (NextResponse_json
                 (error_body "Unable to generate suggestion.") 503),
     [Fetch sample_call]).
Proof.
  apply (provider_error_without_text example_config _ sample_call 300
           (mkProviderResponse 503 (Ret (VObj [("error", VStr "overloaded")])))
           (sample_forwards _) eq_refl eq_refl
           (VObj [("error", VStr "overloaded")]));
    [reflexivity | reflexivity | reflexivity | discriminate].
Defined.

(** ** Requests that cannot be printed *)

Lemma sequence_throws {A} (l : list (outcome A)) e :
  sequence l = Throw e -> In (Throw e) l.
Proof.
  induction l as [|o l IH]; cbn; [discriminate|].
  destruct o as [a|e']; [|intros [= ->]; now left].
  destruct (sequence l); [discriminate|].
  intros [= ->]. right. now apply IH.
Qed.

(** Induction on a value with the elements of an array at hand. *)
Lemma value_ind_items (P : value -> Prop) :
  P VUndefined -> P VNull -> (forall b, P (VBool b)) ->
  (forall n, P (VNum n)) -> (forall s, P (VStr s)) ->
  (forall items, Forall P items -> P (VArr items)) ->
  (forall props, P (VObj props)) ->
  (forall name, P (VNative name)) -> P VObjectPrototype ->
  forall v, P v.
Proof.
  intros Hu Hn Hb Hnum Hs Harr Hobj Hnat Hproto.
  refine (fix F (v : value) : P v :=
            match v with
            | VUndefined => Hu
            | VNull => Hn
            | VBool b => Hb b
            | VNum n => Hnum n
            | VStr s => Hs s
            | VArr items =>
                Harr items
                  ((fix G (l : list value) : Forall P l :=
                      match l with
                      | [] => List.Forall_nil P
                      | x :: r => List.Forall_cons P x r (F x) (G r)
                      end) items)
            | VObj props => Hobj props
            | VNative name => Hnat name
            | VObjectPrototype => Hproto
            end).
Qed.

Lemma to_string_throws v e : to_string v = Throw e -> e = unprintable.
Proof.
  revert e. induction v as [| |b|n|s|items IH|props|name|] using value_ind_items;
    intros e; cbn; try discriminate.
  - destruct b; discriminate.
  - destruct (sequence _) as [l|e'] eqn:Hseq; [discriminate|].
    intros [= ->]. apply sequence_throws in Hseq.
    induction IH as [|x items Hx _ IHitems]; [destruct Hseq|].
    destruct Hseq as [Hthrow|Hin]; [|exact (IHitems Hin)].
    destruct x; try discriminate; exact (Hx _ Hthrow).
  - destruct (assoc "toString" props); [|discriminate].
    intros [= <-]. reflexivity.
Qed.

Lemma join_values_throws sep l e :
  join_values sep l = Throw e -> e = unprintable.
Proof.
  unfold join_values. destruct (sequence _) as [strs|e'] eqn:Hseq;
    [discriminate|].
  intros [= ->]. apply sequence_throws, in_map_iff in Hseq.
  destruct Hseq as (x & Hx & _).
  destruct x; try discriminate; exact (to_string_throws _ _ Hx).
Qed.

Lemma build_call_throws cfg body e :
  nullish body = false ->
  build_call cfg body = Throw e -> e = unprintable.
Proof.
  intros Hnn. unfold build_call, system_content, user_content, user_segments,
    language_line, guidance, context_segment, notes_segment, index,
    interpolate.
  rewrite !(member_read _ _ Hnn). cbn [bind].
  destruct (to_string (read body P_field)) as [k|e1] eqn:Hk; cbn [bind];
    [|intros [= <-]; exact (to_string_throws _ _ Hk)].
  destruct (to_string (lookup fieldFocus k)) as [focus|e1] eqn:Hfocus;
    cbn [bind]; [|intros [= <-]; exact (to_string_throws _ _ Hfocus)].
  destruct (truthy (read body P_applicantDetails));
    [destruct (to_string (read body P_applicantDetails)) as [dt|e1] eqn:Hd;
     cbn [bind]; [|intros [= <-]; exact (to_string_throws _ _ Hd)]|];
    (destruct (truthy (read body P_existingText));
     [destruct (to_string (read body P_existingText)) as [et|e1] eqn:He;
      cbn [bind]; [|intros [= <-]; exact (to_string_throws _ _ He)]|]);
    cbn [bind];
    (destruct (join_values _ _) as [user|e1] eqn:Hjoin; cbn [bind];
     [discriminate | intros [= <-]; exact (join_values_throws _ _ _ Hjoin)]).
Qed.

(** X17: a request that passes line 58 but has no call built for it (its
    [field], or an optional field that counts as true, is an object that
    cannot be turned into text) is answered 500 with
    [{ error: "Cannot convert object to primitive value" }], and nothing
    is sent to the provider. *)
Theorem unprintable_request_500 (cfg : Config) (w : World) (body : value) :
  request_json w = Ret body ->
  missing_fields body = false ->
  (forall c, build_call cfg body <> Ret c) ->
  POST cfg w
  = (withCors (NextResponse_json
                 (error_body "Cannot convert object to primitive value") 500),
     []).
Proof.
  intros Hreq Hpass Hnone. unfold POST, attempt. rewrite Hreq, Hpass.
  destruct (build_call cfg body) as [c|e] eqn:Hcall;
    [exfalso; exact (Hnone c eq_refl)|].
  rewrite (build_call_throws _ _ _ (passes_not_nullish _ Hpass) Hcall).
  reflexivity.
Qed.

Lemma unprintable_request_500_witness :
  POST example_config (mkWorld (Ret unknown_with_opaque_notes) silent)
  = (withCors (NextResponse_json
                 (error_body "Cannot convert object to primitive value") 500),
     []).
Proof.
  apply (unprintable_request_500 example_config _ unknown_with_opaque_notes);
    [reflexivity | reflexivity | discriminate].
Defined.

Lemma guidance_result_prints v : guidance_result v -> printable v.
Proof. intros [text _ _|name| |]; eexists; reflexivity. Qed.

Lemma lookup_fieldFocus_prints k : printable (lookup fieldFocus k).
Proof.
  unfold lookup. destruct (own k fieldFocus); [eexists; reflexivity|].
  apply guidance_result_prints, object_prototype_result.
Qed.

Lemma user_content_prints body k :
  nullish body = false ->
  to_string (read body P_field) = Ret k ->
  truthy (read body P_applicantDetails) = false
  \/ printable (read body P_applicantDetails) ->
  truthy (read body P_existingText) = false
  \/ printable (read body P_existingText) ->
  exists user, user_content body = Ret user.
Proof.
  intros Hnn Hk Hd He.
  unfold user_content, user_segments, language_line, guidance,
    context_segment, notes_segment, index, interpolate.
  rewrite !(member_read _ _ Hnn). cbn [bind]. rewrite Hk. cbn [bind].
  pose proof (lookup_fieldGuidance k) as Hg.
  destruct Hg as [text Hne _|name| |];
    try (destruct text as [|ch text]; [contradiction|]);
    (destruct (truthy (read body P_applicantDetails));
     [destruct Hd as [Hd|[dt Hd]]; [discriminate|]; rewrite Hd|]);
    (destruct (truthy (read body P_existingText));
     [destruct He as [He|[et He]]; [discriminate|]; rewrite He|]);
    cbn; eauto.
Qed.

(** X19: which requests reach the provider.  A request whose body parses
    is forwarded exactly when [field] and [language] count as true,
    [field] can be turned into text, and each of [applicantDetails] and
    [existingText] either counts as false or can be turned into text. *)
Theorem forwarded_exactly_when (cfg : Config) (w : World) (body : value) :
  request_json w = Ret body ->
  (exists c, forwards cfg w c)
  <-> truthy (opt_member body P_field) = true
      /\ truthy (opt_member body P_language) = true
      /\ printable (opt_member body P_field)
      /\ (truthy (opt_member body P_applicantDetails) = false
          \/ printable (opt_member body P_applicantDetails))
      /\ (truthy (opt_member body P_existingText) = false
          \/ printable (opt_member body P_existingText)).
Proof.
  intros Hreq. split.
  - intros (c & body' & Hreq' & Hpass & Hcall).
    rewrite Hreq in Hreq'. injection Hreq' as <-.
    pose proof (passes_not_nullish _ Hpass) as Hnn.
    unfold missing_fields in Hpass. apply orb_false_elim in Hpass as [Hf Hl].
    apply negb_false_iff in Hf, Hl. repeat (split; [assumption|]).
    rewrite !(opt_member_read _ _ Hnn). unfold printable.
    revert Hcall. unfold build_call, system_content, user_content,
      user_segments, language_line, guidance, context_segment,
      notes_segment, index, interpolate.
    rewrite !(member_read _ _ Hnn). cbn [bind].
    destruct (to_string (read body P_field)) as [k|e1]; cbn [bind];
      [|discriminate].
    destruct (to_string (lookup fieldFocus k)); cbn [bind]; [|discriminate].
    intros Hcall. split; [eexists; reflexivity|].
    destruct (truthy (read body P_applicantDetails));
      [destruct (to_string (read body P_applicantDetails)) as [dt|e1];
       cbn [bind] in Hcall; [|discriminate]|];
      (destruct (truthy (read body P_existingText));
       [destruct (to_string (read body P_existingText)) as [et|e1];
        cbn [bind] in Hcall; [|discriminate]|]);
      split; eauto; right; eexists; reflexivity.
  - intros (Hf & Hl & [k Hk] & Hd & He).
    assert (missing_fields body = false) as Hpass.
    { unfold missing_fields. rewrite Hf, Hl. reflexivity. }
    pose proof (passes_not_nullish _ Hpass) as Hnn.
    rewrite !(opt_member_read _ _ Hnn) in *.
    destruct (user_content_prints body k Hnn Hk Hd He) as [user Huser].
    destruct (lookup_fieldFocus_prints k) as [focus Hfocus].
    eexists. exists body. repeat (split; [assumption|]).
    unfold build_call. rewrite Huser.
    unfold system_content, index, interpolate.
    rewrite (member_read _ _ Hnn). cbn [bind]. rewrite Hk. cbn [bind].
    rewrite Hfocus. reflexivity.
Qed.

Lemma forwarded_exactly_when_witness :
  (exists c, forwards example_config (mkWorld (Ret sample_request) silent) c)
  /\ ~ (exists c, forwards example_config
                   (mkWorld (Ret unknown_with_opaque_notes) silent) c).
Proof.
  split.
  - apply (forwarded_exactly_when example_config
             (mkWorld (Ret sample_request) silent) sample_request eq_refl).
    repeat split; try (right; eexists; reflexivity); eexists; reflexivity.
  - intros H.
    apply (forwarded_exactly_when example_config
             (mkWorld (Ret unknown_with_opaque_notes) silent)
             unknown_with_opaque_notes eq_refl) in H.
    destruct H as (_ & _ & _ & _ & [H|[s H]]); discriminate.
Defined.

(** ** What of the request is read *)

Lemma build_call_reads cfg body1 body2 :
  nullish body1 = false -> nullish body2 = false ->
  (forall p, In p read_of_body -> read body1 p = read body2 p) ->
  build_call cfg body1 = build_call cfg body2.
Proof.
  intros Hnn1 Hnn2 Hsame.
  assert (read body1 P_field = read body2 P_field) as Hf
    by (apply Hsame; cbn; auto).
  assert (read body1 P_language = read body2 P_language) as Hl
    by (apply Hsame; cbn; auto).
  assert (read body1 P_applicantDetails = read body2 P_applicantDetails) as Hd
    by (apply Hsame; cbn; auto).
  assert (read body1 P_existingText = read body2 P_existingText) as He
    by (apply Hsame; cbn; auto).
  unfold build_call, system_content, user_content, user_segments,
    language_line, guidance, context_segment, notes_segment.
  rewrite !(member_read _ _ Hnn1), !(member_read _ _ Hnn2), Hf, Hl, Hd, He.
  reflexivity.
Qed.

(** X16: of the body, the handler reads [field], [language],
    [applicantDetails] and [existingText] and nothing else.  Two bodies
    that agree on these four get the same response and the same call,
    whatever else they hold. *)
Theorem unread_properties_ignored
    (cfg : Config) (body1 body2 : value) (answers : Call -> behaviour) :
  (forall p, In p read_of_body -> opt_member body1 p = opt_member body2 p) ->
  POST cfg (mkWorld (Ret body1) answers) = POST cfg (mkWorld (Ret body2) answers).
Proof.
  intros Hsame.
  assert (missing_fields body1 = missing_fields body2) as Hmiss.
  { unfold missing_fields. rewrite !Hsame by (cbn; auto). reflexivity. }
  unfold POST, attempt. cbn [request_json provider].
  destruct (missing_fields body2) eqn:Hpass2; rewrite Hmiss; [reflexivity|].
  pose proof (passes_not_nullish _ Hpass2) as Hnn2.
  pose proof (passes_not_nullish _ Hmiss) as Hnn1.
  rewrite (build_call_reads cfg body1 body2 Hnn1 Hnn2).
  - destruct (build_call cfg body2); reflexivity.
  - intros p Hp. rewrite <- !opt_member_read by assumption. now apply Hsame.
Qed.

Lemma unread_properties_ignored_witness :
  POST example_config (mkWorld (Ret annotated_request) (answering 300
        (mkProviderResponse 200 (Ret (completion (VStr "Fine."))))))
  = POST example_config (mkWorld (Ret sample_request) (answering 300
        (mkProviderResponse 200 (Ret (completion (VStr "Fine.")))))).
Proof.
  apply (unread_properties_ignored example_config annotated_request
           sample_request).
  intros p Hp. cbn in Hp.
  destruct Hp as [<- | [<- | [<- | [<- | []]]]]; reflexivity.
Defined.

(** ** The configuration in the call *)

(** X15: with a configuration that loaded, every call goes by POST to the
    provider's chat completion address, carries the key of the
    environment, which is not empty, as a bearer token, names the model
    of the environment or else "gpt-4o-mini", and asks for temperature
    0.6. *)
Theorem configured_call
    (key model_name : option string) (cfg : Config) (body : value) (c : Call) :
  load_config key model_name = Ret cfg ->
  build_call cfg body = Ret c ->
  exists k,
    key = Some k /\ k <> EmptyString
    /\ url c = "https://api.openai.com/v1/chat/completions"
    /\ method c = "POST"
    /\ call_headers c
       = [ ("Content-Type", "application/json");
           ("Authorization", "Bearer " +:+ k) ]
    /\ model (call_body c) = default "gpt-4o-mini" model_name
    /\ temperature (call_body c) = "0.6".
Proof.
  intros Hload Hcall. unfold load_config in Hload.
  destruct key as [[|a k]|]; try discriminate.
  injection Hload as <-. exists (String a k).
  split; [reflexivity|]. split; [discriminate|].
  revert Hcall. unfold build_call.
  destruct (system_content body); cbn [bind]; [|discriminate].
  destruct (user_content body); cbn [bind]; [|discriminate].
  intros [= <-]. cbn. destruct model_name; repeat split.
Qed.

Lemma configured_call_witness :
  exists k,
    Some "sk-test" = Some k /\ k <> EmptyString
    /\ url sample_call = "https://api.openai.com/v1/chat/completions"
    /\ method sample_call = "POST"
    /\ call_headers sample_call
       = [ ("Content-Type", "application/json");
           ("Authorization", "Bearer " +:+ k) ]
    /\ model (call_body sample_call) = "gpt-4o-mini"
    /\ temperature (call_body sample_call) = "0.6".
Proof.
  apply (configured_call (Some "sk-test") None example_config sample_request
           sample_call); reflexivity.
Defined.

(** ** More on the cross-origin headers *)

(** X13: [withCors] touches nothing but its three headers: the status,
    the body and every header of another name stay as they were. *)
Theorem withCors_keeps_the_rest (r : Response) :
  status (withCors r) = status r
  /\ body (withCors r) = body r
  /\ forall k, ~ In (lower k) cors_names ->
       headers_get k (withCors r) = headers_get k r.
Proof.
  repeat split. intros k Hk.
  unfold withCors, headers_get, headers_set; cbn.
  cbn in Hk.
  rewrite !lookup_insert_ne by (intros Heq; apply Hk; rewrite <- Heq; auto).
  reflexivity.
Qed.

(** X14: [withCors] overwrites whatever the response had under its three
    header names, in any capitalisation, and doing it twice is the same
    as doing it once. *)
Theorem withCors_overwrites (r : Response) :
  carries_cors (withCors r)
  /\ headers_get "access-control-allow-origin" (withCors r) = Some "*"
  /\ headers_get "ACCESS-CONTROL-ALLOW-ORIGIN" (withCors r) = Some "*"
  /\ withCors (withCors r) = withCors r.
Proof.
  split; [apply withCors_carries|].
  destruct (withCors_carries r) as (Horigin & _ & _).
  split; [exact Horigin|]. split; [exact Horigin|].
  unfold withCors, corsHeaders. cbn [foldl fst snd].
  generalize (lower "Access-Control-Allow-Origin"),
    (lower "Access-Control-Allow-Methods"),
    (lower "Access-Control-Allow-Headers").
  intros a b c. unfold headers_set. cbn [status body headers]. f_equal.
  apply map_eq. intros i. rewrite !lookup_insert.
  repeat case_decide; reflexivity.
Qed.

Lemma withCors_keeps_the_rest_witness :
  status (withCors cached_response) = 200
  /\ headers_get "Cache-Control" (withCors cached_response) = Some "no-store".
Proof.
  destruct (withCors_keeps_the_rest cached_response) as (Hst & _ & Hk).
  split; [exact Hst|]. rewrite Hk; [reflexivity|].
  cbn. intuition discriminate.
Defined.
